(** * RemoteView client: tile frame parser, decompression pool, adaptive quality

    A shallow embedding of the ingest core of the RemoteView client:

    - [Types]                : src/types/index.ts (enums, TileHeader, TileData)
    - [TileFrameParser]      : src/protocol/parseTileFrame.ts
    - [TileDecoderLegacy]    : the earlier version of protocol/index.ts, whose
                               TileDecoder.decode reads the header itself
    - [DecompressionPool]    : src/workers/DecompressionPool.ts
    - [TileDecompressor]     : src/protocol/index.ts
    - [AdaptiveQuality]      : src/network/AdaptiveQuality.ts

    JavaScript numbers are modelled by [Z] where the code only ever holds
    integers below 2^53 (byte reads, counters, sizes) and by [Q] where the
    code divides or holds measurements.  NaN and Infinity are modelled where
    the code can divide by zero (the queue pressure), and nowhere else.
    Diagnostic strings (errorDetails, console output) are not modelled. *)

From Stdlib Require Import ZArith QArith List Bool String Lia.
From Stdlib Require Import Strings.Byte.
Import ListNotations.
Open Scope Z_scope.

(* ===================================================================== *)
(** ** Types (src/types/index.ts)                                        *)
(* ===================================================================== *)

Module Types.

Inductive DataType := U8 | U16 | F32 | MuLawU8.
Inductive CompressionType := CNone | LZ4 | Zstd.
Inductive PlaneType := Inline | Crossline | TimeDepth.

(** The numeric value each enum member has at run time. *)
Definition DataType_val (d : DataType) : Z :=
    match d with U8 => 0 | U16 => 1 | F32 => 2 | MuLawU8 => 3 end.
Definition CompressionType_val (c : CompressionType) : Z :=
    match c with CNone => 0 | LZ4 => 1 | Zstd => 2 end.
Definition PlaneType_val (p : PlaneType) : Z :=
    match p with Inline => 0 | Crossline => 1 | TimeDepth => 2 end.

(** [Object.values(E)] of a numeric TypeScript enum holds the member names
    and the member numbers; only the numbers can equal a byte. *)
Definition DataType_values : list Z := map DataType_val [U8; U16; F32; MuLawU8].
Definition CompressionType_values : list Z := map CompressionType_val [CNone; LZ4; Zstd].
Definition PlaneType_values : list Z := map PlaneType_val [Inline; Crossline; TimeDepth].

Definition DataType_eqb (a b : DataType) : bool := DataType_val a =? DataType_val b.
Definition CompressionType_eqb (a b : CompressionType) : bool :=
    CompressionType_val a =? CompressionType_val b.

(** A header as the parsers build it: every field is the number read from
    the wire (the enum-typed fields are casts of the raw byte). *)
Record TileHeader := mkTileHeader {
    msgType : Z;
    plane : Z;
    tileW : Z;
    tileH : Z;
    tileX : Z;
    tileY : Z;
    sliceIndex : Z;
    dtype : Z;
    compression : Z;
    uncompressedBytes : Z;
    payloadBytes : Z
  }.

Definition ArrayBuffer := list byte.

Definition byteLength (b : ArrayBuffer) : Z := Z.of_nat (List.length b).

(** [new Uint8Array(buffer, byteOffset, length)]: a window on the buffer. *)
Record Uint8Array := mkUint8Array {
    byteOffset : Z;
    u8length : Z;
    elems : list byte
  }.

Record TileData := mkTileData {
    header : TileHeader;
    payload : Uint8Array
  }.

End Types.
Import Types.

(* ===================================================================== *)
(** ** DataView reads, exceptions and the read trace                     *)
(* ===================================================================== *)

Module DataView.

Inductive Exn := RangeError | TypeError.

Inductive Exc (A : Type) :=
| Ok (a : A)
| Throw (e : Exn).
Arguments Ok {A} a.
Arguments Throw {A} e.

(** One performed read of the underlying buffer. *)
Record Read := mkRead { r_offset : Z; r_width : Z }.

(** Computations that read the buffer: they may throw and they log each
    read they perform.  A read that is out of range throws before any
    byte is touched, as [DataView.prototype.getUintN] does. *)
Definition M (S A : Type) := S -> Exc A * S.

Definition ret {S A} (a : A) : M S A := fun s => (Ok a, s).
Definition bind {S A B} (m : M S A) (k : A -> M S B) : M S B :=
  fun s => match m s with
           | (Ok a, s') => k a s'
           | (Throw e, s') => (Throw e, s')
           end.
Definition throw {S A} (e : Exn) : M S A := fun s => (Throw e, s).
(** [try { m } catch (e) { h e }]: state changes made before the throw stay. *)
Definition try_catch {S A} (m : M S A) (h : Exn -> M S A) : M S A :=
  fun s => match m s with
           | (Ok a, s') => (Ok a, s')
           | (Throw e, s') => h e s'
           end.

(** [post m s Q]: running [m] from [s] ends in a result and a state that
    satisfy [Q]. *)
Definition post {S A} (m : M S A) (s : S) (Q : Exc A -> S -> Prop) : Prop :=
  Q (fst (m s)) (snd (m s)).

Definition byteAt (b : ArrayBuffer) (i : Z) : Z :=
  Z.of_N (Byte.to_N (nth (Z.to_nat i) b x00)).

Definition inRange (b : ArrayBuffer) (off w : Z) : bool :=
  (0 <=? off) && (off + w <=? byteLength b).

(** Little-endian value of [w] bytes at [off]. *)
Definition le8 (b : ArrayBuffer) (off : Z) : Z := byteAt b off.
Definition le16 (b : ArrayBuffer) (off : Z) : Z :=
  Z.lor (byteAt b off) (Z.shiftl (byteAt b (off + 1)) 8).
Definition le32 (b : ArrayBuffer) (off : Z) : Z :=
  Z.lor (Z.lor (byteAt b off) (Z.shiftl (byteAt b (off + 1)) 8))
        (Z.lor (Z.shiftl (byteAt b (off + 2)) 16) (Z.shiftl (byteAt b (off + 3)) 24)).

Section Reads.
Context {S : Type}.
(** How the read trace sits in the state. *)
Variable log : Read -> S -> S.

Definition readAt (view : ArrayBuffer) (off w : Z) (v : Z) : M S Z :=
  fun s => if inRange view off w then (Ok v, log (mkRead off w) s)
           else (Throw RangeError, s).

Definition getUint8 (view : ArrayBuffer) (off : Z) : M S Z :=
  readAt view off 1 (le8 view off).
(** Both multi-byte getters are only ever called with littleEndian = true. *)
Definition getUint16 (view : ArrayBuffer) (off : Z) : M S Z :=
  readAt view off 2 (le16 view off).
Definition getUint32 (view : ArrayBuffer) (off : Z) : M S Z :=
  readAt view off 4 (le32 view off).

(** [new Uint8Array(buffer, off, len)] throws a RangeError when the
    window does not fit in the buffer. *)
Definition newUint8Array (buffer : ArrayBuffer) (off len : Z) : M S Uint8Array :=
  fun s => if (0 <=? off) && (0 <=? len) && (off + len <=? byteLength buffer)
           then (Ok (mkUint8Array off len
                       (firstn (Z.to_nat len) (skipn (Z.to_nat off) buffer))), s)
           else (Throw RangeError, s).
End Reads.

End DataView.
Import DataView.

Declare Scope js_scope.
Delimit Scope js_scope with js.
Notation "x <- m ;; k" := (bind m (fun x => k))
  (at level 61, m at next level, right associativity) : js_scope.
Notation "m ;;; k" := (bind m (fun _ => k))
  (at level 61, right associativity) : js_scope.

(* ===================================================================== *)
(** ** TileFrameParser (src/protocol/parseTileFrame.ts)                  *)
(* ===================================================================== *)

Module TileFrameParser.

Inductive ParseError :=
| BUFFER_TOO_SHORT
| INVALID_MESSAGE_TYPE
| INVALID_PLANE_TYPE
| INVALID_DATA_TYPE
| INVALID_COMPRESSION_TYPE
| INVALID_TILE_DIMENSIONS
| INVALID_PAYLOAD_SIZE
| PAYLOAD_SIZE_MISMATCH
| UNCOMPRESSED_SIZE_MISMATCH
| CORRUPTED_HEADER
| ENDIANNESS_MISMATCH.

Record ParseResult := mkParseResult {
    success : bool;
    data : option TileData;
    error : option ParseError;
    droppedBytes : option Z
  }.

Record ValidationLimits := mkLimits {
    maxTileWidth : Z;
    maxTileHeight : Z;
    maxCoordinate : Z;
    maxSliceIndex : Z;
    maxPixelsPerTile : Z;
    maxPayloadSize : Z
  }.

Definition TILE_HEADER_SIZE : Z := 24.
Definition EXPECTED_MSG_TYPE : Z := 0x01.

Definition LIMITS : ValidationLimits := {|
    maxTileWidth := 2048;
    maxTileHeight := 2048;
    maxCoordinate := 1000000;
    maxSliceIndex := 100000;
    maxPixelsPerTile := 4 * 1024 * 1024;
    maxPayloadSize := 16 * 1024 * 1024
  |}.

(** The parser object: its three private counters, and the trace of the
    buffer reads it has performed. *)
Record Parser := mkParser {
    frameCount : Z;
    droppedFrames : Z;
    lastError : option ParseError;
    reads : list Read
  }.

Definition newParser : Parser := mkParser 0 0 None [].

Definition logRead (r : Read) (p : Parser) : Parser :=
    mkParser (frameCount p) (droppedFrames p) (lastError p) (reads p ++ [r]).

(** The result type of the private [parseHeader]. *)
Record HeaderResult := mkHeaderResult {
    h_success : bool;
    h_data : option TileHeader;
    h_error : option ParseError
  }.

Definition headerFail (e : ParseError) : HeaderResult := mkHeaderResult false None (Some e).
Definition headerOk (h : TileHeader) : HeaderResult := mkHeaderResult true (Some h) None.

Definition includes (l : list Z) (v : Z) : bool := existsb (Z.eqb v) l.

Definition isValidPlaneType (value : Z) : bool :=
    (0 <=? value) && (value <=? 2) && includes PlaneType_values value.
Definition isValidDataType (value : Z) : bool := includes DataType_values value.
Definition isValidCompressionType (value : Z) : bool := includes CompressionType_values value.

Definition getBytesPerSample (dtype : Z) : Z :=
    if (dtype =? DataType_val U8) || (dtype =? DataType_val MuLawU8) then 1
    else if dtype =? DataType_val U16 then 2
    else if dtype =? DataType_val F32 then 4
    else 1.

Local Open Scope js_scope.

(** The [try] block of [parseHeader]. *)
Definition parseHeaderBody (view : ArrayBuffer) : M Parser HeaderResult :=
  let offset := 0 in
  (* Check message type *)
  msgType <- getUint8 logRead view offset ;; let offset := offset + 1 in
  if negb (msgType =? EXPECTED_MSG_TYPE) then ret (headerFail INVALID_MESSAGE_TYPE) else
  (* Parse plane type *)
  planeValue <- getUint8 logRead view offset ;; let offset := offset + 1 in
  if negb (isValidPlaneType planeValue) then ret (headerFail INVALID_PLANE_TYPE) else
  (* Parse dimensions *)
  tileW <- getUint16 logRead view offset ;;
  tileH <- getUint16 logRead view (offset + 2) ;;
  let offset := offset + 4 in
  (* Validate tile dimensions *)
  if (tileW =? 0) || (tileH =? 0) ||
     (maxTileWidth LIMITS <? tileW) || (maxTileHeight LIMITS <? tileH)
  then ret (headerFail INVALID_TILE_DIMENSIONS) else
  (* Check pixel count limit *)
  let pixelCount := tileW * tileH in
  if maxPixelsPerTile LIMITS <? pixelCount then ret (headerFail INVALID_TILE_DIMENSIONS) else
  (* Parse coordinates *)
  tileX <- getUint32 logRead view offset ;;
  tileY <- getUint32 logRead view (offset + 4) ;;
  sliceIndex <- getUint32 logRead view (offset + 8) ;;
  let offset := offset + 12 in
  (* Validate coordinates *)
  if (maxCoordinate LIMITS <? tileX) || (maxCoordinate LIMITS <? tileY) ||
     (maxSliceIndex LIMITS <? sliceIndex)
  then ret (headerFail INVALID_TILE_DIMENSIONS) else
  (* Parse data type and compression *)
  dtype <- getUint8 logRead view offset ;; let offset := offset + 1 in
  compression <- getUint8 logRead view offset ;; let offset := offset + 1 in
  if negb (isValidDataType dtype) then ret (headerFail INVALID_DATA_TYPE) else
  if negb (isValidCompressionType compression)
  then ret (headerFail INVALID_COMPRESSION_TYPE) else
  (* Parse sizes *)
  uncompressedBytes <- getUint32 logRead view offset ;;
  payloadBytes <- getUint32 logRead view (offset + 4) ;;
  (* Validate sizes *)
  if maxPayloadSize LIMITS <? payloadBytes then ret (headerFail INVALID_PAYLOAD_SIZE) else
  (* For uncompressed data, sizes should match *)
  if (compression =? CompressionType_val CNone) && negb (uncompressedBytes =? payloadBytes)
  then ret (headerFail UNCOMPRESSED_SIZE_MISMATCH) else
  (* Validate expected uncompressed size based on dimensions and data type *)
  let bytesPerSample := getBytesPerSample dtype in
  let expectedUncompressedSize := pixelCount * bytesPerSample in
  if negb (uncompressedBytes =? expectedUncompressedSize)
  then ret (headerFail UNCOMPRESSED_SIZE_MISMATCH) else
  ret (headerOk (mkTileHeader msgType planeValue tileW tileH tileX tileY sliceIndex
                              dtype compression uncompressedBytes payloadBytes)).

(** The [catch] block of [parseHeader]. *)
Definition parseHeaderCatch (error : Exn) : M Parser HeaderResult :=
  ret (headerFail CORRUPTED_HEADER).

Definition parseHeader (view : ArrayBuffer) : M Parser HeaderResult :=
  try_catch (parseHeaderBody view) parseHeaderCatch.

(** The result type of the private [validatePayload]. *)
Record PayloadResult := mkPayloadResult {
  v_success : bool;
  v_error : option ParseError
}.

Definition validatePayload (payload : Uint8Array) (header : TileHeader) : PayloadResult :=
  (* Basic payload size check *)
  if negb (u8length payload =? payloadBytes header)
  then mkPayloadResult false (Some PAYLOAD_SIZE_MISMATCH)
  (* For compressed data, validate that it's not larger than the uncompressed size *)
  else if negb (compression header =? CompressionType_val CNone)
          && (uncompressedBytes header <? u8length payload)
  then mkPayloadResult false (Some INVALID_PAYLOAD_SIZE)
  else mkPayloadResult true None.

(** [error] is [undefined] when a caller passes a missing field on. *)
Definition recordDrop (e : option ParseError) : M Parser unit :=
  fun p => (Ok tt, mkParser (frameCount p) (droppedFrames p + 1) e (reads p)).

Definition incFrameCount : M Parser unit :=
  fun p => (Ok tt, mkParser (frameCount p + 1) (droppedFrames p) (lastError p) (reads p)).

Definition failure (e : option ParseError) (buffer : ArrayBuffer) : ParseResult :=
  mkParseResult false None e (Some (byteLength buffer)).

(** The [try] block of [parse]. *)
Definition parseBody (buffer : ArrayBuffer) : M Parser ParseResult :=
  (* Basic buffer size check *)
  if byteLength buffer <? TILE_HEADER_SIZE then
    recordDrop (Some BUFFER_TOO_SHORT) ;;;
    ret (failure (Some BUFFER_TOO_SHORT) buffer)
  else
    let view := buffer in
    header <- parseHeader view ;;
    if negb (h_success header) then
      recordDrop (h_error header) ;;;
      ret (failure (h_error header) buffer)
    else
      match h_data header with
      | None => throw TypeError       (* header.data!.payloadBytes on undefined *)
      | Some hd =>
          (* Validate payload size matches buffer *)
          let expectedTotalSize := TILE_HEADER_SIZE + payloadBytes hd in
          if negb (byteLength buffer =? expectedTotalSize) then
            recordDrop (Some PAYLOAD_SIZE_MISMATCH) ;;;
            ret (failure (Some PAYLOAD_SIZE_MISMATCH) buffer)
          else
            (* Extract payload *)
            payload <- newUint8Array buffer TILE_HEADER_SIZE (payloadBytes hd) ;;
            (* Validate payload integrity *)
            let payloadValidation := validatePayload payload hd in
            if negb (v_success payloadValidation) then
              recordDrop (v_error payloadValidation) ;;;
              ret (failure (v_error payloadValidation) buffer)
            else
              ret (mkParseResult true (Some (mkTileData hd payload)) None None)
      end.

(** The [catch] block of [parse]. *)
Definition parseCatch (buffer : ArrayBuffer) (error : Exn) : M Parser ParseResult :=
  recordDrop (Some CORRUPTED_HEADER) ;;;
  ret (failure (Some CORRUPTED_HEADER) buffer).

Definition parse (buffer : ArrayBuffer) : M Parser ParseResult :=
  incFrameCount ;;;
  try_catch (parseBody buffer) (parseCatch buffer).

(** [getStats()]; successRate is a quotient, kept as a rational. *)
Record ParserStats := mkParserStats {
    totalFrames : Z;
    stat_droppedFrames : Z;
    successRate : Q;
    stat_lastError : option ParseError
  }.

Definition getStats (p : Parser) : ParserStats :=
    mkParserStats (frameCount p) (droppedFrames p)
      (if 0 <? frameCount p
       then (inject_Z (frameCount p - droppedFrames p) / inject_Z (frameCount p))%Q
       else 1%Q)
      (lastError p).


Definition isValidTileFrame (buffer : ArrayBuffer) : bool :=
    if byteLength buffer <? TILE_HEADER_SIZE then false
    else le8 buffer 0 =? EXPECTED_MSG_TYPE.

End TileFrameParser.

(* ===================================================================== *)
(** ** TileDecoder (src/protocol/index.ts) and its earlier version       *)
(* ===================================================================== *)

Module TileDecoder.
Import TileFrameParser.

(** [TileDecoder.decode]: the static parser parses; a failed parse is [null]. *)
Definition decode (buffer : ArrayBuffer) : M Parser (option TileData) :=
  (result <- parse buffer ;;
   if negb (success result) then ret None
   else ret (data result))%js.

Definition getBytesPerSample (dtype : Z) : Z := TileFrameParser.getBytesPerSample dtype.

End TileDecoder.

Module TileDecoderLegacy.

Definition traceRead (r : Read) (tr : list Read) : list Read := tr ++ [r].

(** The earlier [TileDecoder.decode], which reads the header itself.  The
    object literal evaluates its fields in order, with [offset] equal to 2
    after the two [offset++] reads.  Nothing catches a RangeError here. *)
Definition decode (data : ArrayBuffer) : M (list Read) (option TileData) :=
  (if byteLength data <? 24 then ret None
   else
     let view := data in
     let offset := 0 in
     msgType <- getUint8 traceRead view offset ;; let offset := offset + 1 in
     plane <- getUint8 traceRead view offset ;; let offset := offset + 1 in
     tileW <- getUint16 traceRead view offset ;;
     tileH <- getUint16 traceRead view (offset + 2) ;;
     tileX <- getUint32 traceRead view (offset + 4) ;;
     tileY <- getUint32 traceRead view (offset + 8) ;;
     sliceIndex <- getUint32 traceRead view (offset + 12) ;;
     dtype <- getUint8 traceRead view (offset + 16) ;;
     compression <- getUint8 traceRead view (offset + 17) ;;
     uncompressedBytes <- getUint32 traceRead view (offset + 18) ;;
     payloadBytes <- getUint32 traceRead view (offset + 22) ;;
     let header := mkTileHeader msgType plane tileW tileH tileX tileY sliceIndex
                                dtype compression uncompressedBytes payloadBytes in
     let offset := 24 in
     if negb (msgType =? 0x01) then ret None
     else if byteLength data <? 24 + payloadBytes then ret None
     else
       payload <- newUint8Array data offset payloadBytes ;;
       ret (Some (mkTileData header payload)))%js.

End TileDecoderLegacy.

(* ===================================================================== *)
(** ** DecompressionPool (src/workers/DecompressionPool.ts)              *)
(* ===================================================================== *)

Module DecompressionPool.

(** Worker objects are compared by identity; the i-th worker created by the
    constructor is [i]. *)
Definition Worker := nat.

(** The [Error] a task's promise is rejected with. *)
Inductive TaskError :=
| DroppedBackPressure                 (* 'Task dropped due to queue back-pressure' *)
| WorkerFault (message : string)      (* `Worker error: ${event.message}` *)
| PoolDisposed                        (* 'DecompressionPool disposed' *)
| DecompressionFailed (message : string).

Inductive Outcome :=
| Resolved (d : option (list byte))
| Rejected (e : TaskError).

(** A task; its [resolve]/[reject] closures settle the promise made for
    this task id, which the pool state records in [settled]. *)
Record DecompressionTask := mkTask {
  id : Z;
  data : list byte;
  compression : CompressionType;
  uncompressedSize : Z;
  timestamp : Q
}.

Record DecompressionStats := mkStats {
  totalTasks : Z;
  completedTasks : Z;
  averageTimeMs : Q;
  queueLength : Z;
  activeWorkers : Z;
  droppedTasks : Z
}.

(** The message posted to a worker. *)
Record Request := mkRequest {
  rq_id : Z;
  rq_data : list byte;
  rq_compression : CompressionType;
  rq_uncompressedSize : Z
}.

(** The message a worker answers with. *)
Record Response := mkResponse {
  rs_id : Z;
  rs_success : bool;
  rs_data : option (list byte);
  rs_error : option string;
  rs_timing : option Q
}.

Record Pool := mkPool {
  workers : list Worker;
  availableWorkers : list Worker;
  busyWorkers : list Worker;                      (* Set<Worker>, insertion order *)
  taskQueue : list DecompressionTask;
  pendingTasks : list (Z * DecompressionTask);    (* Map, insertion order *)
  nextTaskId : Z;
  poolSize : Z;
  maxQueueSize : Z;
  stats : DecompressionStats;
  (* what the pool has done to the outside, oldest first *)
  settled : list (Z * Outcome);                   (* task.resolve / task.reject calls *)
  posted : list (Worker * Request);               (* worker.postMessage calls *)
  terminated : list Worker                        (* worker.terminate calls *)
}.

(** *** Set and Map operations *)

Definition set_has (w : Worker) (s : list Worker) : bool := existsb (Nat.eqb w) s.
Definition set_add (w : Worker) (s : list Worker) : list Worker :=
  if set_has w s then s else s ++ [w].
Definition set_delete (w : Worker) (s : list Worker) : list Worker :=
  filter (fun x => negb (Nat.eqb w x)) s.

Definition map_get {V} (k : Z) (m : list (Z * V)) : option V :=
  option_map snd (find (fun kv => fst kv =? k) m).
Definition map_delete {V} (k : Z) (m : list (Z * V)) : list (Z * V) :=
  filter (fun kv => negb (fst kv =? k)) m.
Fixpoint map_set {V} (k : Z) (v : V) (m : list (Z * V)) : list (Z * V) :=
  match m with
  | [] => [(k, v)]
  | (k', v') :: m' => if k' =? k then (k, v) :: m' else (k', v') :: map_set k v m'
  end.

(** *** Field updates *)

Definition with_stats (f : DecompressionStats -> DecompressionStats) (p : Pool) : Pool :=
  mkPool (workers p) (availableWorkers p) (busyWorkers p) (taskQueue p) (pendingTasks p)
         (nextTaskId p) (poolSize p) (maxQueueSize p) (f (stats p))
         (settled p) (posted p) (terminated p).
Definition with_queue (q : list DecompressionTask) (p : Pool) : Pool :=
  mkPool (workers p) (availableWorkers p) (busyWorkers p) q (pendingTasks p)
         (nextTaskId p) (poolSize p) (maxQueueSize p) (stats p)
         (settled p) (posted p) (terminated p).
Definition with_available (a : list Worker) (p : Pool) : Pool :=
  mkPool (workers p) a (busyWorkers p) (taskQueue p) (pendingTasks p)
         (nextTaskId p) (poolSize p) (maxQueueSize p) (stats p)
         (settled p) (posted p) (terminated p).
Definition with_busy (b : list Worker) (p : Pool) : Pool :=
  mkPool (workers p) (availableWorkers p) b (taskQueue p) (pendingTasks p)
         (nextTaskId p) (poolSize p) (maxQueueSize p) (stats p)
         (settled p) (posted p) (terminated p).
Definition with_pending (m : list (Z * DecompressionTask)) (p : Pool) : Pool :=
  mkPool (workers p) (availableWorkers p) (busyWorkers p) (taskQueue p) m
         (nextTaskId p) (poolSize p) (maxQueueSize p) (stats p)
         (settled p) (posted p) (terminated p).
Definition with_nextTaskId (n : Z) (p : Pool) : Pool :=
  mkPool (workers p) (availableWorkers p) (busyWorkers p) (taskQueue p) (pendingTasks p)
         n (poolSize p) (maxQueueSize p) (stats p)
         (settled p) (posted p) (terminated p).
Definition with_workers (ws : list Worker) (p : Pool) : Pool :=
  mkPool ws (availableWorkers p) (busyWorkers p) (taskQueue p) (pendingTasks p)
         (nextTaskId p) (poolSize p) (maxQueueSize p) (stats p)
         (settled p) (posted p) (terminated p).

(** [task.resolve(d)] / [task.reject(e)] *)
Definition settle (t : DecompressionTask) (o : Outcome) (p : Pool) : Pool :=
  mkPool (workers p) (availableWorkers p) (busyWorkers p) (taskQueue p) (pendingTasks p)
         (nextTaskId p) (poolSize p) (maxQueueSize p) (stats p)
         (settled p ++ [(id t, o)]) (posted p) (terminated p).
Definition postMessage (w : Worker) (t : DecompressionTask) (p : Pool) : Pool :=
  mkPool (workers p) (availableWorkers p) (busyWorkers p) (taskQueue p) (pendingTasks p)
         (nextTaskId p) (poolSize p) (maxQueueSize p) (stats p)
         (settled p)
         (posted p ++ [(w, mkRequest (id t) (data t) (compression t) (uncompressedSize t))])
         (terminated p).
Definition terminate (w : Worker) (p : Pool) : Pool :=
  mkPool (workers p) (availableWorkers p) (busyWorkers p) (taskQueue p) (pendingTasks p)
         (nextTaskId p) (poolSize p) (maxQueueSize p) (stats p)
         (settled p) (posted p) (terminated p ++ [w]).

(** *** The methods *)

Definition emptyStats : DecompressionStats := mkStats 0 0 0%Q 0 0 0.

(** [navigator.hardwareConcurrency || 4] *)
Definition hardwareDefault (hardwareConcurrency : Z) : Z :=
  if hardwareConcurrency =? 0 then 4 else hardwareConcurrency.

(** [constructor(poolSize = 4, maxQueueSize = 50)] with [initializeWorkers]. *)
Definition newPool (poolSize maxQueueSize hardwareConcurrency : Z) : Pool :=
  let size := Z.min poolSize (hardwareDefault hardwareConcurrency) in
  let ws := seq 0 (Z.to_nat size) in
  mkPool ws ws [] [] [] 1 size maxQueueSize emptyStats [] [] [].

Definition updateStats (p : Pool) : Pool :=
  with_stats (fun s => mkStats (totalTasks s) (completedTasks s) (averageTimeMs s)
                               (Z.of_nat (List.length (taskQueue p)))
                               (Z.of_nat (List.length (busyWorkers p)))
                               (droppedTasks s)) p.

Definition processNextTask (p : Pool) : Pool :=
  match taskQueue p, availableWorkers p with
  | task :: queue', worker :: available' =>
      let p := with_queue queue' p in
      let p := with_available available' p in
      let p := with_busy (set_add worker (busyWorkers p)) p in
      let p := with_pending (map_set (id task) task (pendingTasks p)) p in
      let p := postMessage worker task p in
      updateStats p
  | _, _ => p
  end.

Definition updateAverageTime (newTime : Q) (p : Pool) : Pool :=
  with_stats (fun s =>
    let oldAvg := averageTimeMs s in
    let count := completedTasks s in
    mkStats (totalTasks s) (completedTasks s)
            ((oldAvg * inject_Z (count - 1) + newTime) / inject_Z count)%Q
            (queueLength s) (activeWorkers s) (droppedTasks s)) p.

Definition truthyQ (t : option Q) : option Q :=
  match t with
  | Some q => if Qeq_bool q 0 then None else Some q
  | None => None
  end.

Definition errorMessage (e : option string) : string :=
  match e with
  | Some s => if String.eqb s EmptyString then "Decompression failed"%string else s
  | None => "Decompression failed"%string
  end.

Definition handleWorkerMessage (worker : Worker) (response : Response) (p : Pool) : Pool :=
  match map_get (rs_id response) (pendingTasks p) with
  | None => p
  | Some task =>
      let p := with_pending (map_delete (rs_id response) (pendingTasks p)) p in
      let p := with_busy (set_delete worker (busyWorkers p)) p in
      let p := with_available (availableWorkers p ++ [worker]) p in
      let p := with_stats (fun s => mkStats (totalTasks s) (completedTasks s + 1)
                                            (averageTimeMs s) (queueLength s)
                                            (activeWorkers s) (droppedTasks s)) p in
      let p := match truthyQ (rs_timing response) with
               | Some t => updateAverageTime t p
               | None => p
               end in
      let p := if rs_success response
               then settle task (Resolved (rs_data response)) p
               else settle task (Rejected (DecompressionFailed
                                             (errorMessage (rs_error response)))) p in
      processNextTask p
  end.

(** The loop of [handleWorkerError] over [pendingTasks.entries()]; deleting
    the entry under the cursor does not disturb the iteration. *)
Fixpoint rejectEntries (worker : Worker) (message : string)
         (entries : list (Z * DecompressionTask)) (p : Pool) : Pool :=
  match entries with
  | [] => p
  | (taskId, task) :: rest =>
      let p := if set_has worker (busyWorkers p)
               then settle task (Rejected (WorkerFault message))
                           (with_pending (map_delete taskId (pendingTasks p)) p)
               else p in
      rejectEntries worker message rest p
  end.

Definition handleWorkerError (worker : Worker) (message : string) (p : Pool) : Pool :=
  let p := rejectEntries worker message (pendingTasks p) p in
  with_busy (set_delete worker (busyWorkers p)) p.

(** What the caller of [decompress] holds: a promise already resolved with
    the data, or the promise of the task with the given id. *)
Inductive Handle :=
| Immediate (d : list byte)
| TaskPromise (taskId : Z).

Definition decompress (d : list byte) (c : CompressionType) (size : Z) (now : Q)
           (p : Pool) : Handle * Pool :=
  (* If no compression, return immediately *)
  if CompressionType_eqb c CNone then (Immediate d, p)
  else
    (* Check queue back-pressure *)
    let p :=
      if maxQueueSize p <=? Z.of_nat (List.length (taskQueue p)) then
        match taskQueue p with
        | droppedTask :: queue' =>
            let p := with_queue queue' p in
            let p := settle droppedTask (Rejected DroppedBackPressure) p in
            with_stats (fun s => mkStats (totalTasks s) (completedTasks s) (averageTimeMs s)
                                         (queueLength s) (activeWorkers s)
                                         (droppedTasks s + 1)) p
        | [] => p
        end
      else p in
    let task := mkTask (nextTaskId p) d c size now in
    let p := with_nextTaskId (nextTaskId p + 1) p in
    let p := with_stats (fun s => mkStats (totalTasks s + 1) (completedTasks s)
                                          (averageTimeMs s) (queueLength s)
                                          (activeWorkers s) (droppedTasks s)) p in
    let p := with_queue (taskQueue p ++ [task]) p in
    (TaskPromise (id task), processNextTask p).

Definition getStats (p : Pool) : DecompressionStats * Pool :=
  let p := updateStats p in (stats p, p).

(** What [taskQueue.length / maxQueueSize] can be: a rational, or what a
    division by zero gives (0 / 0 is NaN, n / 0 with n > 0 is Infinity). *)
Inductive Pressure :=
| Finite (q : Q)
| Infinity
| NaN.

Definition getQueuePressure (p : Pool) : Pressure :=
  let n := Z.of_nat (List.length (taskQueue p)) in
  if maxQueueSize p =? 0 then (if n =? 0 then NaN else Infinity)
  else Finite (inject_Z n / inject_Z (maxQueueSize p))%Q.

(** [getQueuePressure() > 0.8]; a comparison with NaN is false. *)
Definition shouldBackOff (p : Pool) : bool :=
  match getQueuePressure p with
  | Finite q => negb (Qle_bool q (8 # 10))
  | Infinity => true
  | NaN => false
  end.

Definition dispose (p : Pool) : Pool :=
  let p := fold_left (fun p kv => settle (snd kv) (Rejected PoolDisposed) p) (pendingTasks p) p in
  let p := fold_left (fun p t => settle t (Rejected PoolDisposed) p) (taskQueue p) p in
  let p := fold_left (fun p w => terminate w p) (workers p) p in
  let p := with_workers [] p in
  let p := with_available [] p in
  let p := with_busy [] p in
  let p := with_queue [] p in
  with_pending [] p.

End DecompressionPool.

(* ===================================================================== *)
(** ** TileDecompressor (src/protocol/index.ts)                          *)
(* ===================================================================== *)

Module TileDecompressor.
Import DecompressionPool.

(** [getDecompressionPool()]: the global singleton, created on first use
    with the constructor's defaults. *)
Definition getDecompressionPool (hardwareConcurrency : Z) (globalPool : option Pool) : Pool :=
  match globalPool with
  | Some p => p
  | None => newPool 4 50 hardwareConcurrency
  end.

(** [TileDecompressor.decompress] forwards to the pool it holds. *)
Definition decompress (d : list byte) (c : CompressionType) (uncompressedSize : Z) (now : Q)
           (decompressionPool : Pool) : Handle * Pool :=
  DecompressionPool.decompress d c uncompressedSize now decompressionPool.

End TileDecompressor.

(* ===================================================================== *)
(** ** AdaptiveQualityController (src/network/AdaptiveQuality.ts)        *)
(* ===================================================================== *)

Module AdaptiveQuality.

Record QualitySettings := mkSettings {
  dtype : DataType;
  downsample : Z;
  reason : option string
}.

Record PerformanceMetrics := mkMetrics {
  fps : Q;
  avgFrameTime : Q;
  droppedFrames : Q;
  uploadLatency : Q;
  bandwidthUtilization : Q;
  memoryPressure : Q
}.

(** [Partial<PerformanceMetrics>] *)
Record PartialMetrics := mkPartial {
  p_fps : option Q;
  p_avgFrameTime : option Q;
  p_droppedFrames : option Q;
  p_uploadLatency : option Q;
  p_bandwidthUtilization : option Q;
  p_memoryPressure : option Q
}.

Record QualityMessage := mkMessage {     (* type: 'quality' *)
  m_dtype : string;
  m_downsample : Z;
  m_timestamp : Z
}.

(** Registered callbacks are told apart by identity. *)
Definition QualityCallback := nat.

Record Controller := mkController {
  currentSettings : QualitySettings;
  baselineSettings : QualitySettings;
  metrics : PerformanceMetrics;
  callbacks : list QualityCallback;
  degradationLevel : Z;
  steadyStateFrames : Z;
  isMonitoring : bool;
  hasSendMessage : bool;                              (* the optional constructor argument *)
  (* what the controller has done to the outside, oldest first *)
  sent : list QualityMessage;                         (* sendMessage calls *)
  notified : list (QualityCallback * QualitySettings) (* callback calls *)
}.

Definition newController (hasSendMessage : bool) : Controller :=
  mkController (mkSettings F32 1 None) (mkSettings F32 1 None)
               (mkMetrics 60 (1667 # 100) 0 0 0 0)
               [] 0 0 false hasSendMessage [] [].

(** *** Thresholds *)

Definition fps_good : Q := 45.
Definition fps_fair : Q := 25.
Definition fps_poor : Q := 15.
Definition frameTime_good : Q := 22.
Definition frameTime_fair : Q := 40.
Definition frameTime_poor : Q := 67.
Definition droppedFrames_acceptable : Q := 5.
Definition droppedFrames_concerning : Q := 15.
Definition droppedFrames_critical : Q := 30.
Definition uploadLatency_good : Q := 50.
Definition uploadLatency_fair : Q := 150.
Definition uploadLatency_poor : Q := 300.
Definition threshold_steadyStateFrames : Z := 60.

Definition qualityLevels : list QualitySettings :=
  [ mkSettings F32 1 (Some "Full quality"%string);
    mkSettings U16 1 (Some "Reduced precision"%string);
    mkSettings U8 1 (Some "Low precision"%string);
    mkSettings U8 2 (Some "Low precision + downsampling"%string) ].

Definition Qltb (a b : Q) : bool := negb (Qle_bool b a).
Definition Qgtb (a b : Q) : bool := Qltb b a.

(** *** Field updates *)

Definition with_level (l : Z) (c : Controller) : Controller :=
  mkController (currentSettings c) (baselineSettings c) (metrics c) (callbacks c)
               l (steadyStateFrames c) (isMonitoring c) (hasSendMessage c)
               (sent c) (notified c).
Definition with_steady (n : Z) (c : Controller) : Controller :=
  mkController (currentSettings c) (baselineSettings c) (metrics c) (callbacks c)
               (degradationLevel c) n (isMonitoring c) (hasSendMessage c)
               (sent c) (notified c).
Definition with_current (s : QualitySettings) (c : Controller) : Controller :=
  mkController s (baselineSettings c) (metrics c) (callbacks c)
               (degradationLevel c) (steadyStateFrames c) (isMonitoring c) (hasSendMessage c)
               (sent c) (notified c).
Definition with_baseline (s : QualitySettings) (c : Controller) : Controller :=
  mkController (currentSettings c) s (metrics c) (callbacks c)
               (degradationLevel c) (steadyStateFrames c) (isMonitoring c) (hasSendMessage c)
               (sent c) (notified c).
Definition with_metrics (m : PerformanceMetrics) (c : Controller) : Controller :=
  mkController (currentSettings c) (baselineSettings c) m (callbacks c)
               (degradationLevel c) (steadyStateFrames c) (isMonitoring c) (hasSendMessage c)
               (sent c) (notified c).
Definition with_callbacks (cbs : list QualityCallback) (c : Controller) : Controller :=
  mkController (currentSettings c) (baselineSettings c) (metrics c) cbs
               (degradationLevel c) (steadyStateFrames c) (isMonitoring c) (hasSendMessage c)
               (sent c) (notified c).
Definition with_monitoring (b : bool) (c : Controller) : Controller :=
  mkController (currentSettings c) (baselineSettings c) (metrics c) (callbacks c)
               (degradationLevel c) (steadyStateFrames c) b (hasSendMessage c)
               (sent c) (notified c).

(** *** The methods *)

Definition startMonitoring (c : Controller) : Controller :=
  if isMonitoring c then c else with_monitoring true c.
Definition stopMonitoring (c : Controller) : Controller :=
  if negb (isMonitoring c) then c else with_monitoring false c.

Definition orElse {A} (o : option A) (d : A) : A :=
  match o with Some a => a | None => d end.

(** [{ ...this.metrics, ...newMetrics }] *)
Definition updateMetrics (n : PartialMetrics) (c : Controller) : Controller :=
  let m := metrics c in
  with_metrics (mkMetrics (orElse (p_fps n) (fps m))
                          (orElse (p_avgFrameTime n) (avgFrameTime m))
                          (orElse (p_droppedFrames n) (droppedFrames m))
                          (orElse (p_uploadLatency n) (uploadLatency m))
                          (orElse (p_bandwidthUtilization n) (bandwidthUtilization m))
                          (orElse (p_memoryPressure n) (memoryPressure m))) c.

Definition onQualityChange (cb : QualityCallback) (c : Controller) : Controller :=
  with_callbacks (callbacks c ++ [cb]) c.

(** [indexOf] then [splice(index, 1)]: the first occurrence goes. *)
Fixpoint removeFirst (cb : QualityCallback) (l : list QualityCallback) : list QualityCallback :=
  match l with
  | [] => []
  | x :: l' => if Nat.eqb x cb then l' else x :: removeFirst cb l'
  end.
Definition removeQualityCallback (cb : QualityCallback) (c : Controller) : Controller :=
  with_callbacks (removeFirst cb (callbacks c)) c.

Definition getCurrentSettings (c : Controller) : QualitySettings := currentSettings c.

Definition setBaselineSettings (s : QualitySettings) (c : Controller) : Controller :=
  with_baseline s c.

Definition signalScore (worse3 worse2 worse1 : bool) : Z :=
  if worse3 then 3 else if worse2 then 2 else if worse1 then 1 else 0.

Definition calculatePerformanceScore (c : Controller) : Q :=
  let m := metrics c in
  let score := 0 in
  let factors := 0 in
  (* FPS score (0-3, higher is worse performance) *)
  let score := score + signalScore (Qltb (fps m) fps_poor) (Qltb (fps m) fps_fair)
                                   (Qltb (fps m) fps_good) in
  let factors := factors + 1 in
  (* Frame time score *)
  let score := score + signalScore (Qgtb (avgFrameTime m) frameTime_poor)
                                   (Qgtb (avgFrameTime m) frameTime_fair)
                                   (Qgtb (avgFrameTime m) frameTime_good) in
  let factors := factors + 1 in
  (* Dropped frames score *)
  let droppedFramesRate := droppedFrames m in
  let score := score + signalScore (Qgtb droppedFramesRate droppedFrames_critical)
                                   (Qgtb droppedFramesRate droppedFrames_concerning)
                                   (Qgtb droppedFramesRate droppedFrames_acceptable) in
  let factors := factors + 1 in
  (* Upload latency score *)
  let score := score + signalScore (Qgtb (uploadLatency m) uploadLatency_poor)
                                   (Qgtb (uploadLatency m) uploadLatency_fair)
                                   (Qgtb (uploadLatency m) uploadLatency_good) in
  let factors := factors + 1 in
  if 0 <? factors then (inject_Z score / inject_Z factors)%Q else 0%Q.

Definition getTargetDegradation (performanceScore : Q) : Z :=
  if Qle_bool (25 # 10) performanceScore then 3
  else if Qle_bool (15 # 10) performanceScore then 2
  else if Qle_bool (8 # 10) performanceScore then 1
  else 0.

Definition settingsChanged (newSettings : QualitySettings) (c : Controller) : bool :=
  negb (DataType_eqb (dtype (currentSettings c)) (dtype newSettings))
  || negb (downsample (currentSettings c) =? downsample newSettings).

Definition getDataTypeString (d : DataType) : string :=
  match d with
  | U8 => "u8"
  | U16 => "u16"
  | F32 => "f32"
  | MuLawU8 => "mulaw"
  end.

Definition sendQuality (s : QualitySettings) (now : Z) (c : Controller) : Controller :=
  if hasSendMessage c then
    mkController (currentSettings c) (baselineSettings c) (metrics c) (callbacks c)
                 (degradationLevel c) (steadyStateFrames c) (isMonitoring c) (hasSendMessage c)
                 (sent c ++ [mkMessage (getDataTypeString (dtype s)) (downsample s) now])
                 (notified c)
  else c.

Definition notifyAll (s : QualitySettings) (c : Controller) : Controller :=
  mkController (currentSettings c) (baselineSettings c) (metrics c) (callbacks c)
               (degradationLevel c) (steadyStateFrames c) (isMonitoring c) (hasSendMessage c)
               (sent c)
               (notified c ++ map (fun cb => (cb, s)) (callbacks c)).

Definition applyDegradation (level : Z) (now : Z) (c : Controller) : Controller :=
  let clampedLevel := Z.max 0 (Z.min level (Z.of_nat (List.length qualityLevels) - 1)) in
  if clampedLevel =? degradationLevel c then c
  else
    let c := with_level clampedLevel c in
    let newSettings :=
      if clampedLevel =? 0 then baselineSettings c
      else nth (Z.to_nat clampedLevel) qualityLevels (baselineSettings c) in
    if settingsChanged newSettings c then
      let c := with_current newSettings c in
      let c := sendQuality newSettings now c in
      notifyAll newSettings c
    else c.

(** One tick of the monitoring interval; [now] is what [Date.now()] returns
    if a message is sent. *)
Definition evaluatePerformance (now : Z) (c : Controller) : Controller :=
  let performanceScore := calculatePerformanceScore c in
  let targetDegradation := getTargetDegradation performanceScore in
  if degradationLevel c <? targetDegradation then
    (* Performance is poor, increase degradation *)
    let c := applyDegradation targetDegradation now c in
    with_steady 0 c
  else if targetDegradation <? degradationLevel c then
    (* Performance is improving, but wait for steady state *)
    let c := with_steady (steadyStateFrames c + 1) c in
    if threshold_steadyStateFrames <=? steadyStateFrames c then
      let c := applyDegradation targetDegradation now c in
      with_steady 0 c
    else c
  else
    (* Performance is stable at current level *)
    with_steady (Z.min (steadyStateFrames c + 1) 10) c.

Definition forceQuality (settings : QualitySettings) (now : Z) (c : Controller) : Controller :=
  let c := applyDegradation 0 now c in
  let c := with_current settings c in
  let c := with_baseline settings c in
  let c := sendQuality settings now c in
  notifyAll settings c.

Definition resetToBaseline (now : Z) (c : Controller) : Controller :=
  let c := forceQuality (baselineSettings c) now c in
  let c := with_level 0 c in
  with_steady 0 c.

(** [n] consecutive ticks with the metrics left as they are. *)
Fixpoint ticks (n : nat) (now : Z) (c : Controller) : Controller :=
  match n with
  | O => c
  | S n' => ticks n' (now + 1000) (evaluatePerformance now c)
  end.

End AdaptiveQuality.

(* ===================================================================== *)
(** ** Specification vocabulary for the parser                           *)
(* ===================================================================== *)

Module ParserSpec.
Import TileFrameParser.

(** A read that stays inside the buffer. *)
Definition inBounds (buffer : ArrayBuffer) (r : Read) : Prop :=
  0 <= r_offset r /\ 0 < r_width r /\ r_offset r + r_width r <= byteLength buffer.

(** The reads [parseHeader] performs when no check stops it, in order. *)
Definition headerReads : list Read :=
  [ mkRead 0 1; mkRead 1 1; mkRead 2 2; mkRead 4 2; mkRead 6 4; mkRead 10 4;
    mkRead 14 4; mkRead 18 1; mkRead 19 1; mkRead 20 4; mkRead 24 4 ].

(** The eleven fields at the offsets [parseHeader] takes them from. *)
Definition rawHeader (buffer : ArrayBuffer) : TileHeader :=
  mkTileHeader (le8 buffer 0) (le8 buffer 1) (le16 buffer 2) (le16 buffer 4)
               (le32 buffer 6) (le32 buffer 10) (le32 buffer 14)
               (le8 buffer 18) (le8 buffer 19) (le32 buffer 20) (le32 buffer 24).

(** Every check of [parseHeader] passed. *)
Definition validHeader (h : TileHeader) : Prop :=
  msgType h = EXPECTED_MSG_TYPE /\
  isValidPlaneType (plane h) = true /\
  0 < tileW h <= maxTileWidth LIMITS /\
  0 < tileH h <= maxTileHeight LIMITS /\
  tileW h * tileH h <= maxPixelsPerTile LIMITS /\
  tileX h <= maxCoordinate LIMITS /\
  tileY h <= maxCoordinate LIMITS /\
  sliceIndex h <= maxSliceIndex LIMITS /\
  isValidDataType (dtype h) = true /\
  isValidCompressionType (compression h) = true /\
  payloadBytes h <= maxPayloadSize LIMITS /\
  (compression h = CompressionType_val CNone -> uncompressedBytes h = payloadBytes h) /\
  uncompressedBytes h = tileW h * tileH h * getBytesPerSample (dtype h).

(** What must be true of the fields for [parseHeader] to answer with [e]. *)
Definition headerFailReason (buffer : ArrayBuffer) (e : ParseError) : Prop :=
  let h := rawHeader buffer in
  match e with
  | INVALID_MESSAGE_TYPE => msgType h <> EXPECTED_MSG_TYPE
  | INVALID_PLANE_TYPE => isValidPlaneType (plane h) = false
  | INVALID_TILE_DIMENSIONS =>
      tileW h = 0 \/ tileH h = 0 \/
      maxTileWidth LIMITS < tileW h \/ maxTileHeight LIMITS < tileH h \/
      maxPixelsPerTile LIMITS < tileW h * tileH h \/
      maxCoordinate LIMITS < tileX h \/ maxCoordinate LIMITS < tileY h \/
      maxSliceIndex LIMITS < sliceIndex h
  | INVALID_DATA_TYPE => isValidDataType (dtype h) = false
  | INVALID_COMPRESSION_TYPE => isValidCompressionType (compression h) = false
  | INVALID_PAYLOAD_SIZE => maxPayloadSize LIMITS < payloadBytes h
  | UNCOMPRESSED_SIZE_MISMATCH =>
      (compression h = CompressionType_val CNone /\ uncompressedBytes h <> payloadBytes h) \/
      uncompressedBytes h <> tileW h * tileH h * getBytesPerSample (dtype h)
  | CORRUPTED_HEADER => byteLength buffer < 28
  | _ => False
  end.

(** What must be true of a frame with a valid header for [parse] to answer
    with [e] all the same. *)
Definition payloadFailReason (buffer : ArrayBuffer) (e : ParseError) : Prop :=
  let h := rawHeader buffer in
  match e with
  | PAYLOAD_SIZE_MISMATCH => byteLength buffer <> TILE_HEADER_SIZE + payloadBytes h
  | INVALID_PAYLOAD_SIZE =>
      byteLength buffer = TILE_HEADER_SIZE + payloadBytes h /\
      compression h <> CompressionType_val CNone /\
      uncompressedBytes h < payloadBytes h
  | _ => False
  end.

(** What must be true of the buffer for [parse] to answer with [e]. *)
Definition failReason (buffer : ArrayBuffer) (e : ParseError) : Prop :=
  (byteLength buffer < TILE_HEADER_SIZE /\ e = BUFFER_TOO_SHORT) \/
  (TILE_HEADER_SIZE <= byteLength buffer /\ headerFailReason buffer e) \/
  (28 <= byteLength buffer /\ validHeader (rawHeader buffer) /\ payloadFailReason buffer e).

(** The payload window [parse] hands out. *)
Definition payloadOf (buffer : ArrayBuffer) : Uint8Array :=
  mkUint8Array TILE_HEADER_SIZE (payloadBytes (rawHeader buffer))
               (firstn (Z.to_nat (payloadBytes (rawHeader buffer)))
                       (skipn (Z.to_nat TILE_HEADER_SIZE) buffer)).

Definition accepted (buffer : ArrayBuffer) : ParseResult :=
  mkParseResult true (Some (mkTileData (rawHeader buffer) (payloadOf buffer))) None None.

(** The parser state after [new] more reads. *)
Definition logs (new : list Read) (p : Parser) : Parser :=
  mkParser (frameCount p) (droppedFrames p) (lastError p) (reads p ++ new).

(** The parser state after one more frame, dropped or not. *)
Definition counted (dropped : option ParseError) (new : list Read) (p : Parser) : Parser :=
  match dropped with
  | Some e => mkParser (frameCount p + 1) (droppedFrames p + 1) (Some e) (reads p ++ new)
  | None => mkParser (frameCount p + 1) (droppedFrames p) (lastError p) (reads p ++ new)
  end.

(** What [parseHeaderBody] leaves behind. *)
Definition headerPost (buffer : ArrayBuffer) (p : Parser)
           (r : Exc HeaderResult) (p' : Parser) : Prop :=
  exists new, p' = logs new p /\ Forall (inBounds buffer) new /\
  match r with
  | Throw _ => byteLength buffer < 28
  | Ok hr =>
      (exists e, hr = headerFail e /\ headerFailReason buffer e /\ e <> CORRUPTED_HEADER) \/
      (hr = headerOk (rawHeader buffer) /\ validHeader (rawHeader buffer) /\
       new = headerReads /\ 28 <= byteLength buffer)
  end.

(** What [parseHeader] leaves behind: it never throws. *)
Definition headerPost' (buffer : ArrayBuffer) (p : Parser)
           (r : Exc HeaderResult) (p' : Parser) : Prop :=
  exists new, p' = logs new p /\ Forall (inBounds buffer) new /\
  ((exists e, r = Ok (headerFail e) /\ headerFailReason buffer e) \/
   (r = Ok (headerOk (rawHeader buffer)) /\ validHeader (rawHeader buffer) /\
    new = headerReads /\ 28 <= byteLength buffer)).

(** What [parse] leaves behind. *)
Definition parsePost (buffer : ArrayBuffer) (p : Parser)
           (r : Exc ParseResult) (p' : Parser) : Prop :=
  exists new, Forall (inBounds buffer) new /\
  ((exists e, r = Ok (failure (Some e) buffer) /\ failReason buffer e /\
              p' = counted (Some e) new p) \/
   (r = Ok (accepted buffer) /\ validHeader (rawHeader buffer) /\
    byteLength buffer = TILE_HEADER_SIZE + payloadBytes (rawHeader buffer) /\
    28 <= byteLength buffer /\
    (compression (rawHeader buffer) <> CompressionType_val CNone ->
     payloadBytes (rawHeader buffer) <= uncompressedBytes (rawHeader buffer)) /\
    new = headerReads /\ p' = counted None new p)).


(** The state in which the [try] block of [parse] starts. *)
Definition entered (p : Parser) : Parser :=
  mkParser (frameCount p + 1) (droppedFrames p) (lastError p) (reads p).




(** *** Test vectors *)

Definition byteOfZ (z : Z) : byte :=
  match Byte.of_N (Z.to_N z) with Some b => b | None => x00 end.
Definition bytes (l : list Z) : ArrayBuffer := map byteOfZ l.

(** A 2x2 U8 tile, no compression: 28 bytes that [parse] accepts. *)
Definition frame2x2 : ArrayBuffer :=
  bytes [1; 0;  2;0;  2;0;  0;0;0;0;  0;0;0;0;  0;0;0;0;  0;  0;  4;0;0;0;  4;0;0;0].




End ParserSpec.

(* ===================================================================== *)
(** ** Specification vocabulary for the decompression pool               *)
(* ===================================================================== *)

Module PoolSpec.
Import DecompressionPool.

(** The arguments of one [decompress] call, with the clock reading. *)
Record Submission := mkSubmission {
  s_data : list byte;
  s_compression : CompressionType;
  s_size : Z;
  s_now : Q
}.

Definition submit (p : Pool) (s : Submission) : Pool :=
  snd (decompress (s_data s) (s_compression s) (s_size s) (s_now s) p).

(** Submissions one after the other, no worker event in between. *)
Definition submitAll (subs : list Submission) (p : Pool) : Pool :=
  fold_left submit subs p.

(** The task [decompress] builds for a submission when the next id is [n]. *)
Definition taskOf (n : Z) (s : Submission) : DecompressionTask :=
  mkTask n (s_data s) (s_compression s) (s_size s) (s_now s).

Fixpoint tasksFrom (n : Z) (subs : list Submission) : list DecompressionTask :=
  match subs with
  | [] => []
  | s :: rest => taskOf n s :: tasksFrom (n + 1) rest
  end.

Definition compressed (s : Submission) : Prop := s_compression s <> CNone.

(** The message [processNextTask] posts for a task. *)
Definition requestOf (t : DecompressionTask) : Request :=
  mkRequest (id t) (data t) (compression t) (uncompressedSize t).

(** The tasks handed to the workers, one each, in order. *)
Definition dispatches (ws : list Worker) (tasks : list DecompressionTask)
  : list (Worker * Request) :=
  combine ws (map requestOf tasks).

(** [pendingTasks.set(task.id, task)] for each task in turn. *)
Definition insertAll (tasks : list DecompressionTask) (m : list (Z * DecompressionTask))
  : list (Z * DecompressionTask) :=
  fold_left (fun m t => map_set (id t) t m) tasks m.

(** [busyWorkers.add(worker)] for each worker in turn. *)
Definition addAll (ws : list Worker) (busy : list Worker) : list Worker :=
  fold_left (fun b w => set_add w b) ws busy.

(** The worker each task id was posted to. *)
Definition postedTo (p : Pool) (taskId : Z) : option Worker :=
  option_map fst (find (fun wr => rq_id (snd wr) =? taskId) (posted p)).

Definition rejectedWith (p : Pool) (e : TaskError) : list Z :=
  map fst (filter (fun o => match snd o with
                            | Rejected e' =>
                                match e, e' with
                                | DroppedBackPressure, DroppedBackPressure => true
                                | PoolDisposed, PoolDisposed => true
                                | WorkerFault _, WorkerFault _ => true
                                | DecompressionFailed _, DecompressionFailed _ => true
                                | _, _ => false
                                end
                            | Resolved _ => false
                            end) (settled p)).

(** The rejections a worker fault hands to the given entries. *)
Definition faultRejections (message : string) (entries : list (Z * DecompressionTask))
  : list (Z * Outcome) :=
  map (fun kv => (id (snd kv), Rejected (WorkerFault message))) entries.

Definition disposeRejections (tasks : list DecompressionTask) : list (Z * Outcome) :=
  map (fun t => (id t, Rejected PoolDisposed)) tasks.

Definition notAmong (entries : list (Z * DecompressionTask)) (kv : Z * DecompressionTask) : bool :=
  negb (existsb (Z.eqb (fst kv)) (map fst entries)).

(** *** Test vectors *)

Definition lz4 : Submission := mkSubmission [] LZ4 0 0.
Definition identity : Submission := mkSubmission [] CNone 0 0.


(** Two workers, each with one LZ4 task in flight: task 1 on worker 0 and
    task 2 on worker 1; a third task waits in the queue. *)
Definition twoInFlight : Pool := submitAll [lz4; lz4; lz4] (newPool 2 50 8).

(** Two tasks in flight and three queued. *)
Definition twoInFlightThreeQueued : Pool := submitAll (repeat lz4 5) (newPool 2 50 8).

End PoolSpec.

(* ===================================================================== *)
(** ** Specification vocabulary for the quality controller               *)
(* ===================================================================== *)

Module QualitySpec.
Import AdaptiveQuality.

(** The level the current metrics ask for. *)
Definition target (c : Controller) : Z :=
  getTargetDegradation (calculatePerformanceScore c).

(** One sample: the metrics reported before a tick, and the clock at the tick. *)
Definition Sample := (PartialMetrics * Z)%type.

Definition feed (c : Controller) (s : Sample) : Controller :=
  evaluatePerformance (snd s) (updateMetrics (fst s) c).

Definition feedAll (samples : list Sample) (c : Controller) : Controller :=
  fold_left feed samples c.

(** What a client can do with the controller. *)
Inductive ControllerOp :=
| OpTick (now : Z)
| OpUpdateMetrics (m : PartialMetrics)
| OpForceQuality (s : QualitySettings) (now : Z)
| OpResetToBaseline (now : Z)
| OpSetBaseline (s : QualitySettings)
| OpOnQualityChange (cb : QualityCallback)
| OpRemoveQualityCallback (cb : QualityCallback)
| OpStartMonitoring
| OpStopMonitoring.

Definition runControllerOp (c : Controller) (op : ControllerOp) : Controller :=
  match op with
  | OpTick now => evaluatePerformance now c
  | OpUpdateMetrics m => updateMetrics m c
  | OpForceQuality s now => forceQuality s now c
  | OpResetToBaseline now => resetToBaseline now c
  | OpSetBaseline s => setBaselineSettings s c
  | OpOnQualityChange cb => onQualityChange cb c
  | OpRemoveQualityCallback cb => removeQualityCallback cb c
  | OpStartMonitoring => startMonitoring c
  | OpStopMonitoring => stopMonitoring c
  end.

Definition runControllerOps (ops : list ControllerOp) (c : Controller) : Controller :=
  fold_left runControllerOp ops c.

(** The table entry of a level. *)
Definition levelEntry (level : Z) : QualitySettings :=
  nth (Z.to_nat level) qualityLevels (mkSettings F32 1 None).

(** The level is one of 0..3, and above 0 the current settings carry the
    dtype and downsample of that level's table entry. *)
Definition levelInv (c : Controller) : Prop :=
  0 <= degradationLevel c <= 3 /\
  (degradationLevel c <> 0 ->
   dtype (currentSettings c) = dtype (levelEntry (degradationLevel c)) /\
   downsample (currentSettings c) = downsample (levelEntry (degradationLevel c))).

(** *** Test vectors *)

Definition poorSample : PartialMetrics :=
  mkPartial (Some 10%Q) (Some 100%Q) (Some 20%Q) (Some 500%Q) None None.

Definition goodSample : PartialMetrics :=
  mkPartial (Some 60%Q) (Some 16%Q) (Some 0%Q) (Some 0%Q) None None.

(** Poor in three signals of four (scores 3, 3, 0, 3): asks for level 2. *)
Definition laggingSample : PartialMetrics :=
  mkPartial (Some 10%Q) (Some 100%Q) (Some 0%Q) (Some 500%Q) None None.

(** Eleven ticks of poor metrics on a new controller: level 3, counter 10. *)
Definition degraded : Controller :=
  ticks 11 0 (updateMetrics poorSample (newController true)).

End QualitySpec.

(* ===================================================================== *)
(** ** Reasoning about computations that may throw                       *)
(* ===================================================================== *)

Module Post.

Lemma post_ret {S A} (a : A) (s : S) (Q : Exc A -> S -> Prop) :
  Q (Ok a) s -> post (ret a) s Q.
Proof. exact (fun H => H). Qed.

Lemma post_throw {S A} (e : Exn) (s : S) (Q : Exc A -> S -> Prop) :
  Q (Throw e) s -> post (throw e) s Q.
Proof. exact (fun H => H). Qed.

Lemma post_bind {S A B} (m : M S A) (k : A -> M S B) (s : S) (Q : Exc B -> S -> Prop) :
  post m s (fun r s' => match r with
                        | Ok a => post (k a) s' Q
                        | Throw e => Q (Throw e) s'
                        end) ->
  post (bind m k) s Q.
Proof.
  unfold post, bind. destruct (m s) as [[a | e] s']; simpl; auto.
Qed.

Lemma post_try_catch {S A} (m : M S A) (h : Exn -> M S A) (s : S) (Q : Exc A -> S -> Prop) :
  post m s (fun r s' => match r with
                        | Ok a => Q (Ok a) s'
                        | Throw e => post (h e) s' Q
                        end) ->
  post (try_catch m h) s Q.
Proof.
  unfold post, try_catch. destruct (m s) as [[a | e] s']; simpl; auto.
Qed.

Lemma post_readAt {S} (log : Read -> S -> S) view off w v (s : S) (Q : Exc Z -> S -> Prop) :
  (inRange view off w = true -> Q (Ok v) (log (mkRead off w) s)) ->
  (inRange view off w = false -> Q (Throw RangeError) s) ->
  post (readAt log view off w v) s Q.
Proof.
  unfold post, readAt. destruct (inRange view off w); simpl; auto.
Qed.

Lemma post_weaken {S A} (m : M S A) (s : S) (Q Q' : Exc A -> S -> Prop) :
  post m s Q -> (forall r s', Q r s' -> Q' r s') -> post m s Q'.
Proof. unfold post. auto. Qed.

Lemma post_run {S A} (m : M S A) (s : S) (Q : Exc A -> S -> Prop) :
  post m s Q -> forall r s', m s = (r, s') -> Q r s'.
Proof. unfold post. intros H r s' E. rewrite E in H. exact H. Qed.

End Post.

Module ParserProofs.
Import TileFrameParser ParserSpec Post.

Lemma inRange_true view off w :
  inRange view off w = true <-> 0 <= off /\ off + w <= byteLength view.
Proof.
  unfold inRange. rewrite andb_true_iff, !Z.leb_le. tauto.
Qed.

Lemma inRange_false view off w :
  inRange view off w = false <-> off < 0 \/ byteLength view < off + w.
Proof.
  unfold inRange. rewrite andb_false_iff, !Z.leb_gt. tauto.
Qed.

(** Turn the boolean tests collected along a path into propositions. *)
Ltac props :=
  repeat match goal with
  | H : negb _ = true |- _ => apply negb_true_iff in H
  | H : negb _ = false |- _ => apply negb_false_iff in H
  | H : _ || _ = true |- _ => apply orb_true_iff in H
  | H : _ || _ = false |- _ => apply orb_false_iff in H; destruct H
  | H : _ && _ = true |- _ => apply andb_true_iff in H; destruct H
  | H : _ && _ = false |- _ => apply andb_false_iff in H
  | H : (_ =? _) = true |- _ => apply Z.eqb_eq in H
  | H : (_ =? _) = false |- _ => apply Z.eqb_neq in H
  | H : (_ <? _) = true |- _ => apply Z.ltb_lt in H
  | H : (_ <? _) = false |- _ => apply Z.ltb_ge in H
  | H : (_ <=? _) = true |- _ => apply Z.leb_le in H
  | H : (_ <=? _) = false |- _ => apply Z.leb_gt in H
  | H : inRange _ _ _ = true |- _ => apply inRange_true in H
  | H : inRange _ _ _ = false |- _ => apply inRange_false in H
  end.

(** One step of symbolic execution. *)
Ltac step :=
  lazymatch goal with
  | |- post (bind _ _) _ _ => apply post_bind
  | |- post (getUint8 _ _ _) _ _ => apply post_readAt; intros ?
  | |- post (getUint16 _ _ _) _ _ => apply post_readAt; intros ?
  | |- post (getUint32 _ _ _) _ _ => apply post_readAt; intros ?
  | |- post (if ?c then _ else _) _ _ => destruct c eqn:?
  end; cbv zeta.

Lemma logRead_logs r new p : logRead r (logs new p) = logs (new ++ [r]) p.
Proof. unfold logRead, logs. simpl. rewrite app_assoc. reflexivity. Qed.

Lemma logs_nil p : logs [] p = p.
Proof. destruct p. unfold logs. simpl. rewrite app_nil_r. reflexivity. Qed.

Lemma byteAt_nonneg b i : 0 <= byteAt b i.
Proof. unfold byteAt. apply N2Z.is_nonneg. Qed.

Lemma le8_nonneg b i : 0 <= le8 b i.
Proof. apply byteAt_nonneg. Qed.

Lemma le16_nonneg b i : 0 <= le16 b i.
Proof.
  unfold le16. rewrite Z.lor_nonneg, Z.shiftl_nonneg.
  split; apply byteAt_nonneg.
Qed.

Lemma le32_nonneg b i : 0 <= le32 b i.
Proof.
  unfold le32. rewrite !Z.lor_nonneg, !Z.shiftl_nonneg.
  repeat split; apply byteAt_nonneg.
Qed.

Ltac consts := cbn [Z.add Pos.add Pos.succ Pos.add_carry] in *.

Ltac in_bounds :=
  repeat constructor; unfold inBounds; cbn [r_offset r_width]; props; lia.

Lemma parseHeaderBody_spec buffer p :
  post (parseHeaderBody buffer) p (headerPost buffer p).
Proof.
  unfold parseHeaderBody. rewrite <- (logs_nil p) at 1.
  repeat (step; rewrite ?logRead_logs; simpl app).
  all: consts.
  all: try (apply post_ret).
  all: eexists; split; [reflexivity | split; [solve [in_bounds] | ]].
  all: try solve [props; lia].
  all: try (left; eexists; split; [reflexivity | split; [ | discriminate]];
            unfold headerFailReason, rawHeader;
            cbn [msgType plane tileW tileH tileX tileY sliceIndex Types.dtype
                 Types.compression uncompressedBytes payloadBytes];
            props; solve [ assumption | tauto | intuition lia ]).
  right. split; [reflexivity | split; [ | split; [reflexivity | props; lia]]].
  unfold validHeader, rawHeader.
  cbn [msgType plane tileW tileH tileX tileY sliceIndex Types.dtype
       Types.compression uncompressedBytes payloadBytes].
  pose proof (le16_nonneg buffer 2). pose proof (le16_nonneg buffer 4).
  props. repeat split; try assumption; try lia.
Qed.

Lemma post_recordDrop e p (Q : Exc unit -> Parser -> Prop) :
  Q (Ok tt) (mkParser (frameCount p) (droppedFrames p + 1) e (reads p)) ->
  post (recordDrop e) p Q.
Proof. exact (fun H => H). Qed.

Lemma post_incFrameCount p (Q : Exc unit -> Parser -> Prop) :
  Q (Ok tt) (mkParser (frameCount p + 1) (droppedFrames p) (lastError p) (reads p)) ->
  post incFrameCount p Q.
Proof. exact (fun H => H). Qed.

Lemma post_newUint8Array {S} buffer off len (s : S) (Q : Exc Uint8Array -> S -> Prop) :
  (0 <= off -> 0 <= len -> off + len <= byteLength buffer ->
   Q (Ok (mkUint8Array off len (firstn (Z.to_nat len) (skipn (Z.to_nat off) buffer)))) s) ->
  (off < 0 \/ len < 0 \/ byteLength buffer < off + len -> Q (Throw RangeError) s) ->
  post (newUint8Array buffer off len) s Q.
Proof.
  unfold post, newUint8Array. intros Hok Hthrow.
  destruct (0 <=? off) eqn:E1; destruct (0 <=? len) eqn:E2;
    destruct (off + len <=? byteLength buffer) eqn:E3; simpl; props;
    first [ apply Hok; assumption | apply Hthrow; lia ].
Qed.

Lemma parseHeader_spec buffer p :
  post (parseHeader buffer) p (headerPost' buffer p).
Proof.
  unfold parseHeader. apply post_try_catch.
  eapply post_weaken; [apply parseHeaderBody_spec | ].
  intros r p' (new & Hp' & Hin & Hr). destruct r as [hr | e].
  - exists new. repeat split; try assumption.
    destruct Hr as [(e & -> & He & _) | (-> & Hv & Hn & Hl)].
    + left. exists e. auto.
    + right. auto.
  - apply post_ret. exists new. repeat split; try assumption.
    left. exists CORRUPTED_HEADER. split; [reflexivity | exact Hr].
Qed.

(** The [try] block of [parse] never throws. *)
Lemma parseBody_spec buffer p :
  post (parseBody buffer) (entered p) (parsePost buffer p).
Proof.
  unfold parseBody.
  destruct (byteLength buffer <? TILE_HEADER_SIZE) eqn:Hlen.
  - apply post_bind, post_recordDrop, post_ret.
    exists []. split; [constructor | ]. left. exists BUFFER_TOO_SHORT.
    props. split; [reflexivity | split].
    + left. auto.
    + unfold counted. cbn. rewrite app_nil_r. reflexivity.
  - cbv zeta. apply post_bind.
    eapply post_weaken; [apply parseHeader_spec | ].
    intros r p' (new & -> & Hin & Hr). props.
    destruct Hr as [(e & -> & He) | (-> & Hv & -> & Hl)].
    + cbn [h_success headerFail negb h_error].
      apply post_bind, post_recordDrop, post_ret.
      exists new. split; [assumption | ]. left. exists e.
      split; [reflexivity | split].
      * right. left. auto.
      * reflexivity.
    + cbn [h_success h_data headerOk negb].
      destruct (negb (byteLength buffer =? TILE_HEADER_SIZE + payloadBytes (rawHeader buffer)))
        eqn:Htot; props.
      * apply post_bind, post_recordDrop, post_ret.
        exists headerReads. split; [assumption | ]. left. exists PAYLOAD_SIZE_MISMATCH.
        split; [reflexivity | split].
        -- right. right. auto.
        -- reflexivity.
      * apply post_bind, post_newUint8Array.
        2:{ intros Hbad. exfalso.
            pose proof (le32_nonneg buffer 24).
            unfold TILE_HEADER_SIZE, rawHeader in *. cbn [payloadBytes] in *. lia. }
        intros _ Hnn _. cbv zeta. unfold validatePayload. cbn [u8length].
        rewrite Z.eqb_refl. cbn [negb].
        destruct (negb (Types.compression (rawHeader buffer) =? CompressionType_val CNone)
                  && (uncompressedBytes (rawHeader buffer) <? payloadBytes (rawHeader buffer)))
          eqn:Hc; cbn [v_success v_error negb]; props.
        -- apply post_bind, post_recordDrop, post_ret.
           exists headerReads. split; [assumption | ]. left. exists INVALID_PAYLOAD_SIZE.
           split; [reflexivity | split].
           ++ right. right. split; [exact Hl | split; [exact Hv | ]].
              split; [exact Htot | split; assumption].
           ++ reflexivity.
        -- apply post_ret. exists headerReads. split; [assumption | ]. right.
           split; [reflexivity | split; [exact Hv | split; [exact Htot | ]]].
           split; [exact Hl | split; [ | split; reflexivity]].
           intros Hne. destruct Hc as [Hc | Hc]; props; [contradiction | assumption].
Qed.

Lemma parse_spec buffer p : post (parse buffer) p (parsePost buffer p).
Proof.
  unfold parse. apply post_bind, post_incFrameCount, post_try_catch.
  eapply post_weaken; [apply parseBody_spec | ].
  intros [r | e] p' H; [exact H | exfalso].
  destruct H as (new & _ & [(e' & H & _) | (H & _)]); discriminate H.
Qed.

End ParserProofs.

Module ParserProperties.
Import TileFrameParser ParserSpec Post ParserProofs.



Lemma parse_cases buffer p :
  exists new, Forall (inBounds buffer) new /\
  ((exists e, parse buffer p = (Ok (failure (Some e) buffer), counted (Some e) new p) /\
              failReason buffer e) \/
   (parse buffer p = (Ok (accepted buffer), counted None new p) /\
    validHeader (rawHeader buffer) /\
    byteLength buffer = TILE_HEADER_SIZE + payloadBytes (rawHeader buffer) /\
    28 <= byteLength buffer /\
    (compression (rawHeader buffer) <> CompressionType_val CNone ->
     payloadBytes (rawHeader buffer) <= uncompressedBytes (rawHeader buffer)) /\
    new = headerReads)).
Proof.
  pose proof (parse_spec buffer p) as H. unfold post, parsePost in H.
  destruct H as (new & Hin & H). exists new. split; [exact Hin | ].
  destruct (parse buffer p) as [r p']. cbn [fst snd] in H.
  destruct H as [(e & -> & He & ->) | (-> & Hv & Hl & H28 & Hc & Hn & ->)].
  - left. exists e. auto.
  - right. auto 10.
Qed.




















Lemma byteAt_payload buffer n i :
  0 <= i < n ->
  byteAt (firstn (Z.to_nat n) (skipn (Z.to_nat TILE_HEADER_SIZE) buffer)) i
  = byteAt buffer (TILE_HEADER_SIZE + i).
Proof.
  intros Hi. unfold byteAt. rewrite nth_firstn, nth_skipn.
  replace (Z.to_nat i <? Z.to_nat n)%nat with true
    by (symmetry; apply Nat.ltb_lt; lia).
  unfold TILE_HEADER_SIZE. rewrite <- Z2Nat.inj_add by lia. reflexivity.
Qed.

(** Every frame [parse] accepts has had its payloadBytes field read from
    bytes 24..27, which are the first four bytes of the payload it returns:
    the field and the payload overlap. *)
Lemma accepted_payloadBytes_inside_payload buffer p r p' td :
  parse buffer p = (Ok r, p') -> success r = true -> data r = Some td ->
  reads p' = reads p ++ headerReads /\
  In (mkRead TILE_HEADER_SIZE 4) headerReads /\
  byteOffset (payload td) = TILE_HEADER_SIZE /\
  4 <= u8length (payload td) /\
  u8length (payload td) = payloadBytes (header td) /\
  le32 (elems (payload td)) 0 = payloadBytes (header td).
Proof.
  intros Hrun Hs Hd.
  destruct (parse_cases buffer p) as (new & _ & [(e & Hrun' & _) | (Hrun' & Hv & Hl & H28 & _ & ->)]);
    rewrite Hrun' in Hrun; injection Hrun as <- <-; [discriminate Hs | ].
  cbn in Hd. injection Hd as <-.
  cbn [header payload payloadOf byteOffset u8length elems].
  assert (H4 : 4 <= payloadBytes (rawHeader buffer))
    by (unfold TILE_HEADER_SIZE in Hl; lia).
  repeat split; try assumption.
  - cbn. tauto.
  - unfold le32 at 1. rewrite !byteAt_payload by lia. reflexivity.
Qed.

(** C3 (the code disagrees).  On the 28-byte frame of a 2x2 U8 tile [parse]
    succeeds; it has read payloadBytes at offset 24, four bytes past the
    24-byte header, and the payload it returns starts at byte 24 too: its
    four bytes are the payloadBytes field itself.  The earlier
    [TileDecoder.decode] reads the same offsets, and on the first 24 bytes
    alone its read of payloadBytes throws. *)
Theorem payloadBytes_field_read_from_payload_region :
  TILE_HEADER_SIZE = 24 /\
  parse frame2x2 newParser
  = (Ok (mkParseResult true
           (Some (mkTileData (mkTileHeader 1 0 2 2 0 0 0 0 0 4 4)
                             (mkUint8Array 24 4 (bytes [4; 0; 0; 0]))))
           None None),
     mkParser 1 0 None headerReads) /\
  last headerReads (mkRead 0 0) = mkRead 24 4 /\
  TileDecoderLegacy.decode frame2x2 []
  = (Ok (Some (mkTileData (mkTileHeader 1 0 2 2 0 0 0 0 0 4 4)
                          (mkUint8Array 24 4 (bytes [4; 0; 0; 0])))),
     headerReads) /\
  TileDecoderLegacy.decode (firstn 24 frame2x2) []
  = (Throw RangeError, firstn 10 headerReads).
Proof. repeat split; vm_compute; reflexivity. Qed.

End ParserProperties.

(* ===================================================================== *)
(** ** The decompression pool                                            *)
(* ===================================================================== *)

Module PoolProofs.
Import DecompressionPool PoolSpec.

Lemma compressed_eqb s : compressed s -> CompressionType_eqb (s_compression s) CNone = false.
Proof. unfold compressed. destruct (s_compression s); [congruence | reflexivity | reflexivity]. Qed.

(** A submission that finds the queue empty and a worker idle goes straight
    to that worker. *)
Lemma submit_dispatch p s w ws :
  taskQueue p = [] -> availableWorkers p = w :: ws -> compressed s ->
  let p' := submit p s in
  taskQueue p' = [] /\ availableWorkers p' = ws /\
  settled p' = settled p /\
  droppedTasks (stats p') = droppedTasks (stats p) /\
  totalTasks (stats p') = totalTasks (stats p) + 1 /\
  completedTasks (stats p') = completedTasks (stats p) /\
  nextTaskId p' = nextTaskId p + 1 /\
  maxQueueSize p' = maxQueueSize p /\
  pendingTasks p' = map_set (nextTaskId p) (taskOf (nextTaskId p) s) (pendingTasks p) /\
  posted p' = posted p ++ [(w, requestOf (taskOf (nextTaskId p) s))] /\
  busyWorkers p' = set_add w (busyWorkers p).
Proof.
  intros Hq Ha Hc. unfold submit, decompress. rewrite (compressed_eqb s Hc), Hq.
  destruct (maxQueueSize p <=? Z.of_nat (List.length (@nil DecompressionTask)));
    unfold processNextTask; cbn; rewrite Hq, Ha; cbn; repeat split; reflexivity.
Qed.

(** With no idle worker and room in the queue the task is appended. *)
Lemma submit_enqueue p s :
  availableWorkers p = [] -> Z.of_nat (List.length (taskQueue p)) < maxQueueSize p ->
  compressed s ->
  let p' := submit p s in
  taskQueue p' = taskQueue p ++ [taskOf (nextTaskId p) s] /\ availableWorkers p' = [] /\
  settled p' = settled p /\
  droppedTasks (stats p') = droppedTasks (stats p) /\
  totalTasks (stats p') = totalTasks (stats p) + 1 /\
  completedTasks (stats p') = completedTasks (stats p) /\
  nextTaskId p' = nextTaskId p + 1 /\
  maxQueueSize p' = maxQueueSize p /\
  pendingTasks p' = pendingTasks p /\
  posted p' = posted p /\
  busyWorkers p' = busyWorkers p.
Proof.
  intros Ha Hlen Hc. unfold submit, decompress. rewrite (compressed_eqb s Hc).
  apply Z.leb_gt in Hlen. rewrite Hlen.
  unfold processNextTask; cbn; rewrite Ha.
  destruct (taskQueue p ++ _); cbn; repeat split; solve [reflexivity | assumption].
Qed.

(** With no idle worker and a full queue the head of the queue is evicted
    and rejected, then the task is appended. *)
Lemma submit_drop p s t q :
  availableWorkers p = [] -> taskQueue p = t :: q ->
  maxQueueSize p <= Z.of_nat (List.length (taskQueue p)) ->
  compressed s ->
  let p' := submit p s in
  taskQueue p' = q ++ [taskOf (nextTaskId p) s] /\ availableWorkers p' = [] /\
  settled p' = settled p ++ [(id t, Rejected DroppedBackPressure)] /\
  droppedTasks (stats p') = droppedTasks (stats p) + 1 /\
  totalTasks (stats p') = totalTasks (stats p) + 1 /\
  completedTasks (stats p') = completedTasks (stats p) /\
  nextTaskId p' = nextTaskId p + 1 /\
  maxQueueSize p' = maxQueueSize p /\
  pendingTasks p' = pendingTasks p /\
  posted p' = posted p /\
  busyWorkers p' = busyWorkers p.
Proof.
  intros Ha Hq Hlen Hc. unfold submit, decompress. rewrite (compressed_eqb s Hc).
  apply Z.leb_le in Hlen. rewrite Hlen, Hq.
  unfold processNextTask; cbn; rewrite Ha.
  destruct (q ++ _); cbn; repeat split; solve [reflexivity | assumption].
Qed.

Lemma submitAll_app l1 l2 p : submitAll (l1 ++ l2) p = submitAll l2 (submitAll l1 p).
Proof. apply fold_left_app. Qed.

(** As long as idle workers remain, submissions are dispatched at once. *)
Lemma submitAll_dispatch subs : forall p,
  taskQueue p = [] -> Forall compressed subs ->
  (List.length subs <= List.length (availableWorkers p))%nat ->
  let p' := submitAll subs p in
  taskQueue p' = [] /\
  availableWorkers p' = skipn (List.length subs) (availableWorkers p) /\
  settled p' = settled p /\
  droppedTasks (stats p') = droppedTasks (stats p) /\
  totalTasks (stats p') = totalTasks (stats p) + Z.of_nat (List.length subs) /\
  completedTasks (stats p') = completedTasks (stats p) /\
  nextTaskId p' = nextTaskId p + Z.of_nat (List.length subs) /\
  maxQueueSize p' = maxQueueSize p /\
  busyWorkers p'
  = addAll (firstn (List.length subs) (availableWorkers p)) (busyWorkers p) /\
  pendingTasks p' = insertAll (tasksFrom (nextTaskId p) subs) (pendingTasks p) /\
  posted p' = posted p ++ dispatches (availableWorkers p) (tasksFrom (nextTaskId p) subs).
Proof.
  induction subs as [ | s subs IH]; intros p Hq Hc Hlen.
  - cbn. unfold dispatches. rewrite combine_nil, app_nil_r.
    repeat split; solve [assumption | lia].
  - inversion Hc as [ | ? ? Hs Hrest]; subst.
    destruct (availableWorkers p) as [ | w ws] eqn:Ha; [cbn in Hlen; lia | ].
    destruct (submit_dispatch p s w ws Hq Ha Hs)
      as (Q1 & A1 & S1 & D1 & T1 & C1 & N1 & M1 & P1 & O1 & B1).
    cbn [submitAll fold_left]. fold (submitAll subs (submit p s)).
    destruct (IH (submit p s) Q1 Hrest)
      as (Q2 & A2 & S2 & D2 & T2 & C2 & N2 & M2 & B2 & P2 & O2).
    { rewrite A1. cbn in Hlen. lia. }
    cbn zeta. rewrite Q2, A2, S2, D2, T2, C2, N2, M2, B2, P2, O2,
                      A1, S1, D1, T1, C1, N1, M1, P1, O1, B1.
    unfold addAll, insertAll, dispatches.
    cbn [List.length skipn firstn tasksFrom map combine fold_left taskOf id].
    rewrite <- app_assoc. cbn [app].
    repeat split; lia.
Qed.

Lemma tasksFrom_length n subs : List.length (tasksFrom n subs) = List.length subs.
Proof. revert n. induction subs; intros n; cbn; [reflexivity | f_equal; apply IHsubs]. Qed.

(** With every worker taken, submissions fill the queue up to its capacity. *)
Lemma submitAll_enqueue subs : forall p,
  availableWorkers p = [] -> Forall compressed subs ->
  Z.of_nat (List.length (taskQueue p) + List.length subs) <= maxQueueSize p ->
  let p' := submitAll subs p in
  taskQueue p' = taskQueue p ++ tasksFrom (nextTaskId p) subs /\
  availableWorkers p' = [] /\
  settled p' = settled p /\
  droppedTasks (stats p') = droppedTasks (stats p) /\
  totalTasks (stats p') = totalTasks (stats p) + Z.of_nat (List.length subs) /\
  completedTasks (stats p') = completedTasks (stats p) /\
  nextTaskId p' = nextTaskId p + Z.of_nat (List.length subs) /\
  maxQueueSize p' = maxQueueSize p /\
  busyWorkers p' = busyWorkers p /\
  pendingTasks p' = pendingTasks p /\
  posted p' = posted p.
Proof.
  induction subs as [ | s subs IH]; intros p Ha Hc Hlen.
  - cbn. rewrite app_nil_r. repeat split; solve [assumption | lia].
  - inversion Hc as [ | ? ? Hs Hrest]; subst.
    destruct (submit_enqueue p s Ha)
      as (Q1 & A1 & S1 & D1 & T1 & C1 & N1 & M1 & P1 & O1 & B1);
      [cbn [List.length] in Hlen; lia | exact Hs | ].
    cbn [submitAll fold_left]. fold (submitAll subs (submit p s)).
    destruct (IH (submit p s) A1 Hrest)
      as (Q2 & A2 & S2 & D2 & T2 & C2 & N2 & M2 & B2 & P2 & O2).
    { rewrite Q1, M1, length_app. cbn [List.length] in *. lia. }
    cbn zeta. rewrite Q2, A2, S2, D2, T2, C2, N2, M2, B2, P2, O2,
                      Q1, S1, D1, T1, C1, N1, M1, P1, O1, B1.
    cbn [List.length tasksFrom]. rewrite <- app_assoc. cbn [app].
    repeat split; lia.
Qed.

End PoolProofs.

Module PoolProperties.
Import DecompressionPool PoolSpec PoolProofs.

(** C1, as stated, fails: a new pool with the constructor's defaults (4
    workers, queue capacity 50) takes 51 tasks without dropping any, since
    the first four leave the queue for the idle workers at once. *)
Lemma backpressure_new_pool_no_drop :
  let p := submitAll (repeat lz4 51) (newPool 4 50 8) in
  maxQueueSize p = 50 /\
  droppedTasks (stats p) = 0 /\
  settled p = [] /\
  List.length (taskQueue p) = 47%nat /\
  List.length (pendingTasks p) = 4%nat.
Proof. vm_compute. repeat split; reflexivity. Qed.

(** C1, amended.  Start with an empty queue and [a] idle workers (a = 0 when
    every worker is busy), capacity maxQueueSize >= 1.  Of a + maxQueueSize
    + 1 compressed tasks submitted with no completion in between, the first
    [a] are posted at once to the idle workers, one each and in order (they
    become busy, the tasks pending), the next maxQueueSize fill the queue
    with nothing dropped and nothing posted, and the last one evicts exactly
    the oldest queued task (the (a+1)-th submitted): that task is rejected
    with the back-pressure error, the new task takes the freed place at the
    tail, and droppedTasks grows by exactly one. *)
Theorem backpressure_drops_oldest_queued
        (p : Pool) (direct queued : list Submission) (newest : Submission) :
  taskQueue p = [] ->
  List.length direct = List.length (availableWorkers p) ->
  Z.of_nat (List.length queued) = maxQueueSize p ->
  1 <= maxQueueSize p ->
  Forall compressed (direct ++ queued ++ [newest]) ->
  let before := submitAll (direct ++ queued) p in
  let after := submitAll (direct ++ queued ++ [newest]) p in
  let oldest := nextTaskId p + Z.of_nat (List.length direct) in
  (* nothing is dropped while the queue fills *)
  settled before = settled p /\
  droppedTasks (stats before) = droppedTasks (stats p) /\
  taskQueue before = tasksFrom oldest queued /\
  (hd_error (map id (taskQueue before)) = Some oldest) /\
  (* the last submission evicts the oldest queued task, and only that one *)
  settled after = settled p ++ [(oldest, Rejected DroppedBackPressure)] /\
  droppedTasks (stats after) = droppedTasks (stats p) + 1 /\
  taskQueue after = tl (taskQueue before) ++ [taskOf (nextTaskId before) newest] /\
  Z.of_nat (List.length (taskQueue after)) = maxQueueSize p /\
  totalTasks (stats after)
  = totalTasks (stats p) + Z.of_nat (List.length (direct ++ queued ++ [newest])) /\
  (* the first tasks, and only they, went to the idle workers *)
  posted after
  = posted p ++ dispatches (availableWorkers p) (tasksFrom (nextTaskId p) direct) /\
  pendingTasks after = insertAll (tasksFrom (nextTaskId p) direct) (pendingTasks p) /\
  busyWorkers after = addAll (availableWorkers p) (busyWorkers p) /\
  availableWorkers after = [].
Proof.
  intros Hq Hdirect Hqueued Hcap Hc before after oldest.
  apply Forall_app in Hc as [Hc1 Hc23]. apply Forall_app in Hc23 as [Hc2 Hc3].
  inversion Hc3 as [ | ? ? Hnew _]; subst.
  (* the direct tasks *)
  destruct (submitAll_dispatch direct p Hq Hc1)
    as (Q1 & A1 & S1 & D1 & T1 & C1 & N1 & M1 & B1 & P1 & O1); [lia | ].
  rewrite Hdirect, skipn_all in A1. rewrite Hdirect, firstn_all in B1.
  (* the queued tasks *)
  destruct (submitAll_enqueue queued (submitAll direct p) A1 Hc2)
    as (Q2 & A2 & S2 & D2 & T2 & C2 & N2 & M2 & B2 & P2 & O2).
  { rewrite Q1, M1. cbn [List.length]. lia. }
  rewrite <- submitAll_app in Q2, A2, S2, D2, T2, C2, N2, M2, B2, P2, O2.
  fold before in Q2, A2, S2, D2, T2, C2, N2, M2, B2, P2, O2.
  rewrite Q1, N1 in Q2. cbn [app] in Q2. fold oldest in Q2.
  (* the newest task *)
  destruct queued as [ | s0 queued]; [cbn in Hqueued; lia | ].
  cbn [tasksFrom] in Q2.
  destruct (submit_drop before newest _ _ A2 Q2)
    as (Q3 & A3 & S3 & D3 & T3 & C3 & N3 & M3 & P3 & O3 & B3);
    [ rewrite Q2, M2, M1; cbn [List.length]; rewrite tasksFrom_length;
      cbn [List.length] in Hqueued; lia | exact Hnew | ].
  assert (Hafter : after = submit before newest).
  { unfold after, before. rewrite app_assoc, submitAll_app. reflexivity. }
  rewrite Hafter, Q3, A3, S3, D3, T3, P3, O3, B3, Q2, S2, D2, T2, P2, O2, B2,
          S1, D1, T1, P1, O1, B1.
  cbn [tasksFrom map hd_error id tl].
  repeat split.
  - rewrite length_app, tasksFrom_length. cbn [List.length] in *. lia.
  - rewrite !length_app. cbn [List.length]. lia.
Qed.

(** A pool of two idle workers with capacity 3: of six tasks the first two
    go to the workers, three fill the queue, and the sixth evicts task 3. *)
Lemma backpressure_drops_oldest_queued_witness :
  let after := submitAll (repeat lz4 6) (newPool 2 3 8) in
  settled after = [(3, Rejected DroppedBackPressure)] /\
  droppedTasks (stats after) = 1 /\
  map id (taskQueue after) = [4; 5; 6] /\
  map (fun wr => (fst wr, rq_id (snd wr))) (posted after) = [(0%nat, 1); (1%nat, 2)].
Proof.
  assert (Hc : Forall compressed (repeat lz4 2 ++ repeat lz4 3 ++ [lz4]))
    by (repeat constructor; discriminate).
  destruct (backpressure_drops_oldest_queued (newPool 2 3 8)
              (repeat lz4 2) (repeat lz4 3) lz4 eq_refl eq_refl eq_refl
              ltac:(vm_compute; discriminate) Hc)
    as (_ & _ & _ & _ & Hs & Hd & Hq & _ & _ & Hp & _).
  split; [exact Hs | split; [exact Hd | ]].
  change (repeat lz4 6) with (repeat lz4 2 ++ repeat lz4 3 ++ [lz4]).
  rewrite Hq, Hp. vm_compute. split; reflexivity.
Defined.


(** *** Worker faults *)

Lemma filter_filter {A} (f g : A -> bool) l :
  filter f (filter g l) = filter (fun x => g x && f x) l.
Proof.
  induction l as [ | x l IH]; cbn; [reflexivity | ].
  destruct (g x); cbn; [destruct (f x) | ]; rewrite IH; reflexivity.
Qed.

Lemma rejectEntries_busy worker message entries : forall p,
  set_has worker (busyWorkers p) = true ->
  let p' := rejectEntries worker message entries p in
  settled p' = settled p ++ faultRejections message entries /\
  pendingTasks p' = filter (notAmong entries) (pendingTasks p) /\
  busyWorkers p' = busyWorkers p /\
  availableWorkers p' = availableWorkers p /\
  taskQueue p' = taskQueue p /\
  stats p' = stats p.
Proof.
  induction entries as [ | [taskId task] entries IH]; intros p Hbusy.
  - cbn. rewrite app_nil_r. repeat split.
    symmetry. apply forallb_filter_id, forallb_forall. reflexivity.
  - pose proof (IH (settle task (Rejected (WorkerFault message))
                           (with_pending (map_delete taskId (pendingTasks p)) p)) Hbusy)
      as (S1 & P1 & B1 & A1 & Q1 & T1).
    cbn zeta. cbn [rejectEntries]. rewrite Hbusy, S1, P1, B1, A1, Q1, T1.
    cbn [settled pendingTasks with_pending settle busyWorkers availableWorkers
         taskQueue stats faultRejections map snd].
    rewrite <- app_assoc. cbn [app]. repeat split.
    unfold map_delete. rewrite filter_filter. apply filter_ext.
    intros [k v]. unfold notAmong. cbn [fst map existsb].
    rewrite negb_orb. reflexivity.
Qed.

Lemma filter_notAmong_self entries : filter (notAmong entries) entries = [].
Proof.
  assert (H : forall l, incl l entries -> filter (notAmong entries) l = []).
  { induction l as [ | kv l IH]; intros Hincl; [reflexivity | ].
    cbn [filter].
    assert (Hkv : notAmong entries kv = false).
    { unfold notAmong. apply negb_false_iff, existsb_exists.
      exists (fst kv). split; [ | apply Z.eqb_refl].
      apply in_map, Hincl. left. reflexivity. }
    rewrite Hkv. apply IH. intros x Hx. apply Hincl. right. exact Hx. }
  apply H, incl_refl.
Qed.

(** When a busy worker faults, the loop rejects every pending task, whatever
    worker it was posted to. *)
Lemma handleWorkerError_rejects_all_pending worker message p :
  set_has worker (busyWorkers p) = true ->
  let p' := handleWorkerError worker message p in
  settled p' = settled p ++ faultRejections message (pendingTasks p) /\
  pendingTasks p' = [] /\
  busyWorkers p' = set_delete worker (busyWorkers p) /\
  availableWorkers p' = availableWorkers p.
Proof.
  intros Hbusy. unfold handleWorkerError.
  destruct (rejectEntries_busy worker message (pendingTasks p) p Hbusy)
    as (S1 & P1 & B1 & A1 & _).
  cbn zeta. cbn [settled pendingTasks busyWorkers availableWorkers with_busy].
  rewrite S1, P1, B1, A1, filter_notAmong_self. repeat split.
Qed.

(** C2 (the code disagrees).  Task 1 is in flight on worker 0 and task 2 on
    worker 1.  When worker 0 faults, the pool rejects task 2 as well, with
    the worker-fault error; worker 1 stays in the busy set, and when its
    answer for task 2 arrives the pool drops it as unknown, so task 2 never
    gets its own outcome, worker 1 never becomes idle again and the queued
    task 3 is never dispatched. *)
Theorem worker_fault_rejects_tasks_of_other_workers :
  let p := twoInFlight in
  let faulted := handleWorkerError 0%nat "boom" p in
  let answer := mkResponse 2 true (Some []) None (Some 1%Q) in
  postedTo p 1 = Some 0%nat /\ postedTo p 2 = Some 1%nat /\
  map fst (pendingTasks p) = [1; 2] /\
  settled p = [] /\
  settled faulted = [(1, Rejected (WorkerFault "boom")); (2, Rejected (WorkerFault "boom"))] /\
  pendingTasks faulted = [] /\
  busyWorkers faulted = [1%nat] /\ availableWorkers faulted = [] /\
  handleWorkerMessage 1%nat answer faulted = faulted /\
  map id (taskQueue faulted) = [3].
Proof. vm_compute. repeat split; reflexivity. Qed.

(** *** Identity payloads *)

Lemma processNextTask_totalTasks p :
  totalTasks (stats (processNextTask p)) = totalTasks (stats p).
Proof.
  unfold processNextTask.
  destruct (taskQueue p); [reflexivity | ].
  destruct (availableWorkers p); reflexivity.
Qed.

(** A compressed payload becomes a task with the next id and is counted. *)
Lemma decompress_compressed d c size now p :
  c <> CNone ->
  fst (decompress d c size now p) = TaskPromise (nextTaskId p) /\
  totalTasks (stats (snd (decompress d c size now p))) = totalTasks (stats p) + 1.
Proof.
  intros Hc. unfold decompress.
  replace (CompressionType_eqb c CNone) with false by (destruct c; [congruence | | ]; reflexivity).
  cbn [fst snd]. rewrite processNextTask_totalTasks.
  destruct (maxQueueSize p <=? Z.of_nat (List.length (taskQueue p)));
    [destruct (taskQueue p) | ]; split; reflexivity.
Qed.

(** C4 (the code disagrees).  For compression None the pool returns the data
    at once: the pool state is untouched, so totalTasks does not move, no
    task is created and nothing reaches a worker; an LZ4 or Zstd payload
    adds one to totalTasks and gets a task. *)
Theorem identity_payload_bypasses_pool_accounting
        (d : list byte) (size : Z) (now : Q) (p : Pool) :
  TileDecompressor.decompress d CNone size now p = (Immediate d, p) /\
  totalTasks (stats (snd (TileDecompressor.decompress d CNone size now p)))
  = totalTasks (stats p) /\
  fst (TileDecompressor.decompress d LZ4 size now p) = TaskPromise (nextTaskId p) /\
  totalTasks (stats (snd (TileDecompressor.decompress d LZ4 size now p)))
  = totalTasks (stats p) + 1 /\
  fst (TileDecompressor.decompress d Zstd size now p) = TaskPromise (nextTaskId p) /\
  totalTasks (stats (snd (TileDecompressor.decompress d Zstd size now p)))
  = totalTasks (stats p) + 1 /\
  totalTasks (stats (snd (TileDecompressor.decompress [] CNone 0 0
                            (TileDecompressor.getDecompressionPool 8 None)))) = 0.
Proof.
  unfold TileDecompressor.decompress.
  destruct (decompress_compressed d LZ4 size now p) as [L1 L2]; [discriminate | ].
  destruct (decompress_compressed d Zstd size now p) as [Z1 Z2]; [discriminate | ].
  repeat split; try assumption; reflexivity.
Qed.

(** *** Disposal *)

Lemma fold_settle_pending (entries : list (Z * DecompressionTask)) : forall p,
  fold_left (fun p kv => settle (snd kv) (Rejected PoolDisposed) p) entries p
  = mkPool (workers p) (availableWorkers p) (busyWorkers p) (taskQueue p) (pendingTasks p)
           (nextTaskId p) (poolSize p) (maxQueueSize p) (stats p)
           (settled p ++ disposeRejections (map snd entries)) (posted p) (terminated p).
Proof.
  induction entries as [ | kv entries IH]; intros p; cbn [fold_left].
  - cbn. rewrite app_nil_r. destruct p; reflexivity.
  - rewrite IH. cbn. rewrite <- app_assoc. reflexivity.
Qed.

Lemma fold_settle_queue tasks : forall p,
  fold_left (fun p t => settle t (Rejected PoolDisposed) p) tasks p
  = mkPool (workers p) (availableWorkers p) (busyWorkers p) (taskQueue p) (pendingTasks p)
           (nextTaskId p) (poolSize p) (maxQueueSize p) (stats p)
           (settled p ++ disposeRejections tasks) (posted p) (terminated p).
Proof.
  induction tasks as [ | t tasks IH]; intros p; cbn [fold_left].
  - cbn. rewrite app_nil_r. destruct p; reflexivity.
  - rewrite IH. cbn. rewrite <- app_assoc. reflexivity.
Qed.

Lemma fold_terminate ws : forall p,
  fold_left (fun p w => terminate w p) ws p
  = mkPool (workers p) (availableWorkers p) (busyWorkers p) (taskQueue p) (pendingTasks p)
           (nextTaskId p) (poolSize p) (maxQueueSize p) (stats p)
           (settled p) (posted p) (terminated p ++ ws).
Proof.
  induction ws as [ | w ws IH]; intros p; cbn [fold_left].
  - rewrite app_nil_r. destruct p; reflexivity.
  - rewrite IH. cbn. rewrite <- app_assoc. reflexivity.
Qed.

Lemma dispose_eq p :
  dispose p
  = mkPool [] [] [] [] [] (nextTaskId p) (poolSize p) (maxQueueSize p) (stats p)
           (settled p ++ disposeRejections (map snd (pendingTasks p))
                      ++ disposeRejections (taskQueue p))
           (posted p) (terminated p ++ workers p).
Proof.
  unfold dispose. rewrite fold_settle_pending. cbn [taskQueue pendingTasks workers].
  rewrite fold_settle_queue. cbn [workers]. rewrite fold_terminate.
  cbn. rewrite <- app_assoc. reflexivity.
Qed.

(** C9.  [dispose] rejects every pending (in-flight) and every queued task
    with the disposal error, pending ones first, each exactly once;
    terminates every worker; empties the pool; leaves the statistics, so
    totalTasks and completedTasks, as they were; and a second [dispose]
    changes nothing.  With 2 tasks in flight and 3 queued all 5 are
    rejected. *)
Theorem dispose_rejects_all_and_is_idempotent (p : Pool) :
  let p' := dispose p in
  settled p' = settled p ++ disposeRejections (map snd (pendingTasks p))
                         ++ disposeRejections (taskQueue p) /\
  terminated p' = terminated p ++ workers p /\
  workers p' = [] /\ availableWorkers p' = [] /\ busyWorkers p' = [] /\
  taskQueue p' = [] /\ pendingTasks p' = [] /\
  totalTasks (stats p') = totalTasks (stats p) /\
  completedTasks (stats p') = completedTasks (stats p) /\
  dispose p' = p' /\
  (List.length (pendingTasks twoInFlightThreeQueued) = 2%nat /\
   List.length (taskQueue twoInFlightThreeQueued) = 3%nat /\
   totalTasks (stats twoInFlightThreeQueued) = 5 /\
   completedTasks (stats twoInFlightThreeQueued) = 0 /\
   settled twoInFlightThreeQueued = [] /\
   settled (dispose twoInFlightThreeQueued)
   = [(1, Rejected PoolDisposed); (2, Rejected PoolDisposed); (3, Rejected PoolDisposed);
      (4, Rejected PoolDisposed); (5, Rejected PoolDisposed)] /\
   terminated (dispose twoInFlightThreeQueued) = [0%nat; 1%nat] /\
   totalTasks (stats (dispose twoInFlightThreeQueued)) = 5 /\
   completedTasks (stats (dispose twoInFlightThreeQueued)) = 0).
Proof.
  cbn zeta. rewrite (dispose_eq (dispose p)). rewrite (dispose_eq p).
  cbn [settled terminated workers availableWorkers busyWorkers taskQueue pendingTasks
       stats nextTaskId poolSize maxQueueSize posted map disposeRejections].
  rewrite !app_nil_r.
  repeat split; vm_compute; reflexivity.
Qed.

End PoolProperties.

(* ===================================================================== *)
(** ** The quality controller                                            *)
(* ===================================================================== *)

Module QualityProofs.
Import AdaptiveQuality QualitySpec.

Lemma getTargetDegradation_range q : 0 <= getTargetDegradation q <= 3.
Proof.
  unfold getTargetDegradation.
  repeat match goal with |- context [if ?b then _ else _] => destruct b end; lia.
Qed.

Lemma target_range c : 0 <= target c <= 3.
Proof. apply getTargetDegradation_range. Qed.

Lemma target_metrics c c' : metrics c = metrics c' -> target c = target c'.
Proof.
  intros H. unfold target, calculatePerformanceScore. rewrite H. reflexivity.
Qed.

(** *** What [applyDegradation] changes *)

Lemma clamp_id level :
  0 <= level <= 3 ->
  Z.max 0 (Z.min level (Z.of_nat (List.length qualityLevels) - 1)) = level.
Proof. intros H. change (Z.of_nat (List.length qualityLevels)) with 4. lia. Qed.

Lemma applyDegradation_level level now c :
  0 <= level <= 3 -> degradationLevel (applyDegradation level now c) = level.
Proof.
  intros Hl. unfold applyDegradation. rewrite !clamp_id by lia.
  destruct (level =? degradationLevel c) eqn:E.
  - apply Z.eqb_eq in E. congruence.
  - destruct (settingsChanged _ _); [ | reflexivity].
    unfold notifyAll, sendQuality. cbn. destruct (hasSendMessage c); reflexivity.
Qed.

Lemma applyDegradation_frame level now c :
  metrics (applyDegradation level now c) = metrics c /\
  steadyStateFrames (applyDegradation level now c) = steadyStateFrames c /\
  baselineSettings (applyDegradation level now c) = baselineSettings c.
Proof.
  unfold applyDegradation.
  destruct (_ =? degradationLevel c); [repeat split | ].
  destruct (settingsChanged _ _); [ | repeat split].
  unfold notifyAll, sendQuality. cbn.
  destruct (hasSendMessage c); repeat split.
Qed.

Lemma DataType_eqb_eq a b : DataType_eqb a b = true <-> a = b.
Proof. destruct a, b; cbn; split; intros H; congruence. Qed.

Lemma nth_levelEntry level d :
  1 <= level <= 3 -> nth (Z.to_nat level) qualityLevels d = levelEntry level.
Proof.
  intros H. assert (Hc : level = 1 \/ level = 2 \/ level = 3) by lia.
  destruct Hc as [-> | [-> | ->]]; reflexivity.
Qed.

(** After [applyDegradation] the current settings carry the dtype and
    downsample of the chosen entry, whether or not they had to change. *)
Lemma applyDegradation_settings level now c :
  1 <= level <= 3 -> level <> degradationLevel c ->
  dtype (currentSettings (applyDegradation level now c)) = dtype (levelEntry level) /\
  downsample (currentSettings (applyDegradation level now c)) = downsample (levelEntry level).
Proof.
  intros Hl Hne. unfold applyDegradation. rewrite !clamp_id by lia.
  destruct (level =? degradationLevel c) eqn:E; [apply Z.eqb_eq in E; contradiction | ].
  destruct (level =? 0) eqn:E0; [apply Z.eqb_eq in E0; lia | ].
  rewrite !nth_levelEntry by lia.
  destruct (settingsChanged _ _) eqn:Hch.
  - unfold notifyAll, sendQuality. cbn.
    destruct (hasSendMessage c); cbn; split; reflexivity.
  - unfold settingsChanged in Hch. cbn [currentSettings with_level] in Hch.
    apply orb_false_iff in Hch as [Hd Hs].
    apply negb_false_iff in Hd, Hs.
    apply DataType_eqb_eq in Hd. apply Z.eqb_eq in Hs.
    cbn [currentSettings with_level]. split; assumption.
Qed.

Lemma applyDegradation_clamp level now c :
  applyDegradation level now c
  = applyDegradation (Z.max 0 (Z.min level 3)) now c.
Proof.
  unfold applyDegradation. change (Z.of_nat (List.length qualityLevels) - 1) with 3.
  replace (Z.max 0 (Z.min (Z.max 0 (Z.min level 3)) 3)) with (Z.max 0 (Z.min level 3)) by lia.
  reflexivity.
Qed.

Lemma applyDegradation_same now c :
  applyDegradation (degradationLevel c) now c = c \/ ~ 0 <= degradationLevel c <= 3.
Proof.
  destruct (Z_le_dec 0 (degradationLevel c)); [ | right; lia].
  destruct (Z_le_dec (degradationLevel c) 3); [ | right; lia].
  left. unfold applyDegradation. rewrite clamp_id by lia. rewrite Z.eqb_refl. reflexivity.
Qed.

(** *** The level invariant *)

Lemma applyDegradation_inv level now c :
  levelInv c -> levelInv (applyDegradation level now c).
Proof.
  intros Hinv. rewrite applyDegradation_clamp.
  set (cl := Z.max 0 (Z.min level 3)). assert (Hcl : 0 <= cl <= 3) by lia.
  destruct (Z.eq_dec cl (degradationLevel c)) as [E | E].
  - rewrite E. destruct (applyDegradation_same now c) as [-> | H]; [exact Hinv | ].
    destruct Hinv as [H' _]. contradiction.
  - unfold levelInv. rewrite applyDegradation_level by exact Hcl.
    split; [exact Hcl | ]. intros H0.
    apply applyDegradation_settings; [lia | exact E].
Qed.

Lemma with_steady_inv n c : levelInv c -> levelInv (with_steady n c).
Proof. exact (fun H => H). Qed.

Lemma evaluatePerformance_inv now c : levelInv c -> levelInv (evaluatePerformance now c).
Proof.
  intros Hinv. unfold evaluatePerformance.
  destruct (degradationLevel c <? _).
  - apply with_steady_inv, applyDegradation_inv, Hinv.
  - destruct (_ <? degradationLevel c).
    + destruct (_ <=? _).
      * apply with_steady_inv, applyDegradation_inv. exact Hinv.
      * exact Hinv.
    + exact Hinv.
Qed.

Lemma level0_inv c : degradationLevel c = 0 -> levelInv c.
Proof. intros H. unfold levelInv. rewrite H. split; [lia | congruence]. Qed.

Lemma forceQuality_level s now c :
  degradationLevel (forceQuality s now c) = 0.
Proof.
  unfold forceQuality, notifyAll, sendQuality. cbn.
  destruct (hasSendMessage _); cbn; apply applyDegradation_level; lia.
Qed.

Lemma controller_runOp_inv c op : levelInv c -> levelInv (runControllerOp c op).
Proof.
  intros Hinv. destruct op; cbn [runControllerOp].
  - apply evaluatePerformance_inv, Hinv.
  - exact Hinv.
  - apply level0_inv, forceQuality_level.
  - apply level0_inv. reflexivity.
  - exact Hinv.
  - exact Hinv.
  - exact Hinv.
  - unfold startMonitoring. destruct (isMonitoring c); exact Hinv.
  - unfold stopMonitoring. destruct (negb (isMonitoring c)); exact Hinv.
Qed.

Lemma controller_runOps_inv ops : forall c, levelInv c -> levelInv (runControllerOps ops c).
Proof.
  unfold runControllerOps. induction ops as [ | op ops IH]; intros c Hc; cbn [fold_left].
  - exact Hc.
  - apply IH, controller_runOp_inv, Hc.
Qed.

Lemma newController_inv b : levelInv (newController b).
Proof. apply level0_inv. reflexivity. Qed.

(** *** Ticks *)

Lemma evaluatePerformance_metrics now c : metrics (evaluatePerformance now c) = metrics c.
Proof.
  unfold evaluatePerformance.
  destruct (degradationLevel c <? _).
  - cbn [metrics with_steady]. apply applyDegradation_frame.
  - destruct (_ <? degradationLevel c); [ | reflexivity].
    destruct (_ <=? _); [ | reflexivity].
    cbn [metrics with_steady].
    destruct (applyDegradation_frame
                (getTargetDegradation (calculatePerformanceScore c)) now
                (with_steady (steadyStateFrames c + 1) c)) as [H _].
    rewrite H. reflexivity.
Qed.

(** A tick whose target is the maximum puts the controller at level 3 with
    the most degraded entry. *)
Lemma tick_to_max now c :
  levelInv c -> target c = 3 ->
  let c' := evaluatePerformance now c in
  degradationLevel c' = 3 /\
  dtype (currentSettings c') = U8 /\ downsample (currentSettings c') = 2.
Proof.
  intros [Hr Hs] Ht. unfold evaluatePerformance. fold (target c). rewrite Ht.
  destruct (degradationLevel c <? 3) eqn:E; [apply Z.ltb_lt in E | apply Z.ltb_ge in E].
  - cbn zeta. cbn [degradationLevel currentSettings with_steady].
    rewrite applyDegradation_level by lia.
    destruct (applyDegradation_settings 3 now c) as [Hd Hds]; [lia | lia | ].
    rewrite Hd, Hds. repeat split.
  - assert (El : degradationLevel c = 3) by lia.
    replace (3 <? degradationLevel c) with false by (symmetry; apply Z.ltb_ge; lia).
    cbn zeta. cbn [degradationLevel currentSettings with_steady].
    destruct Hs as [Hd Hds]; [lia | ]. rewrite El in Hd, Hds.
    rewrite Hd, Hds, El. repeat split.
Qed.

Lemma ticks_to_max n : forall now c,
  levelInv c -> target c = 3 -> (1 <= n)%nat ->
  degradationLevel (ticks n now c) = 3 /\
  dtype (currentSettings (ticks n now c)) = U8 /\
  downsample (currentSettings (ticks n now c)) = 2.
Proof.
  induction n as [ | n IH]; intros now c Hinv Ht Hn; [lia | ].
  cbn [ticks]. destruct n as [ | n].
  - cbn [ticks]. apply tick_to_max; assumption.
  - apply IH; [apply evaluatePerformance_inv, Hinv | | lia].
    rewrite <- Ht. apply target_metrics, evaluatePerformance_metrics.
Qed.

Lemma poorSample_score c :
  calculatePerformanceScore (updateMetrics poorSample c) = (11 # 4)%Q.
Proof. reflexivity. Qed.

(** *** Ticks that ask for a better level *)

(** Below the threshold such a tick only counts. *)
Lemma tick_better_waits now c :
  target c < degradationLevel c ->
  steadyStateFrames c + 1 < threshold_steadyStateFrames ->
  evaluatePerformance now c = with_steady (steadyStateFrames c + 1) c.
Proof.
  intros Ht Hs. unfold evaluatePerformance. fold (target c).
  replace (degradationLevel c <? target c) with false by (symmetry; apply Z.ltb_ge; lia).
  replace (target c <? degradationLevel c) with true by (symmetry; apply Z.ltb_lt; lia).
  cbn zeta. cbn [steadyStateFrames with_steady].
  replace (threshold_steadyStateFrames <=? steadyStateFrames c + 1) with false
    by (symmetry; apply Z.leb_gt; lia).
  reflexivity.
Qed.

(** At the threshold the target level is applied and the counter reset. *)
Lemma tick_better_applies now c :
  target c < degradationLevel c ->
  threshold_steadyStateFrames <= steadyStateFrames c + 1 ->
  degradationLevel (evaluatePerformance now c) = target c /\
  steadyStateFrames (evaluatePerformance now c) = 0.
Proof.
  intros Ht Hs. unfold evaluatePerformance. fold (target c).
  replace (degradationLevel c <? target c) with false by (symmetry; apply Z.ltb_ge; lia).
  replace (target c <? degradationLevel c) with true by (symmetry; apply Z.ltb_lt; lia).
  cbn zeta. cbn [steadyStateFrames with_steady].
  replace (threshold_steadyStateFrames <=? steadyStateFrames c + 1) with true
    by (symmetry; apply Z.leb_le; lia).
  cbn [degradationLevel with_steady]. split; [ | reflexivity].
  apply applyDegradation_level, target_range.
Qed.

(** A tick whose target is not better leaves the counter between 0 and 10. *)
Lemma tick_not_better_counter now c :
  0 <= steadyStateFrames c -> degradationLevel c <= target c ->
  0 <= steadyStateFrames (evaluatePerformance now c) <= 10 /\
  degradationLevel c <= degradationLevel (evaluatePerformance now c).
Proof.
  intros H0 Ht. unfold evaluatePerformance. fold (target c).
  destruct (degradationLevel c <? target c) eqn:E.
  - apply Z.ltb_lt in E. cbn [steadyStateFrames degradationLevel with_steady].
    rewrite applyDegradation_level by apply target_range. lia.
  - replace (target c <? degradationLevel c) with false by (symmetry; apply Z.ltb_ge; lia).
    cbn [steadyStateFrames degradationLevel with_steady]. lia.
Qed.

(** While the counter is below the threshold no tick lowers the level,
    whatever the sample. *)
Lemma feed_no_upgrade s c :
  0 <= steadyStateFrames c -> steadyStateFrames c + 1 < threshold_steadyStateFrames ->
  degradationLevel c <= degradationLevel (feed c s) /\
  0 <= steadyStateFrames (feed c s) <= steadyStateFrames c + 1.
Proof.
  intros H0 Hs. unfold feed.
  set (c1 := updateMetrics (fst s) c).
  change (degradationLevel c) with (degradationLevel c1).
  change (steadyStateFrames c) with (steadyStateFrames c1) in *.
  clearbody c1. unfold evaluatePerformance. fold (target c1).
  destruct (degradationLevel c1 <? target c1) eqn:E.
  - apply Z.ltb_lt in E. cbn [steadyStateFrames degradationLevel with_steady].
    rewrite applyDegradation_level by apply target_range. lia.
  - destruct (target c1 <? degradationLevel c1) eqn:E'.
    + cbn zeta. cbn [steadyStateFrames with_steady].
      replace (threshold_steadyStateFrames <=? steadyStateFrames c1 + 1) with false
        by (symmetry; apply Z.leb_gt; lia).
      cbn [steadyStateFrames degradationLevel with_steady]. lia.
    + cbn [steadyStateFrames degradationLevel with_steady]. lia.
Qed.

Lemma feedAll_no_upgrade samples : forall c,
  0 <= steadyStateFrames c ->
  steadyStateFrames c + Z.of_nat (List.length samples) < threshold_steadyStateFrames ->
  degradationLevel c <= degradationLevel (feedAll samples c).
Proof.
  unfold feedAll. induction samples as [ | s samples IH]; intros c H0 Hs; cbn [fold_left].
  - lia.
  - cbn [List.length] in Hs.
    destruct (feed_no_upgrade s c H0) as [Hl Hc]; [lia | ].
    specialize (IH (feed c s)). lia.
Qed.

(** The counter never goes below 0. *)
Lemma evaluatePerformance_counter now c :
  0 <= steadyStateFrames c -> 0 <= steadyStateFrames (evaluatePerformance now c).
Proof.
  intros H0. unfold evaluatePerformance.
  destruct (degradationLevel c <? _); [cbn; lia | ].
  destruct (_ <? degradationLevel c); [ | cbn; lia].
  cbn zeta. cbn [steadyStateFrames with_steady].
  destruct (_ <=? _); cbn; lia.
Qed.

Lemma forceQuality_counter s now c :
  steadyStateFrames (forceQuality s now c) = steadyStateFrames c.
Proof.
  unfold forceQuality, notifyAll, sendQuality. cbn.
  destruct (hasSendMessage _); cbn; apply applyDegradation_frame.
Qed.

(** So every state a client can bring a new controller to has it at 0 or
    above. *)
Lemma controller_counter_nonneg ops : forall c,
  0 <= steadyStateFrames c -> 0 <= steadyStateFrames (runControllerOps ops c).
Proof.
  unfold runControllerOps. induction ops as [ | op ops IH]; intros c Hc; cbn [fold_left].
  - exact Hc.
  - apply IH. destruct op; cbn [runControllerOp]; try exact Hc.
    + apply evaluatePerformance_counter, Hc.
    + rewrite forceQuality_counter. exact Hc.
    + cbn. lia.
    + unfold startMonitoring. destruct (isMonitoring c); exact Hc.
    + unfold stopMonitoring. destruct (negb (isMonitoring c)); exact Hc.
Qed.

End QualityProofs.

Module QualityProperties.
Import AdaptiveQuality QualitySpec QualityProofs.

(** C6.  With fps 10, avgFrameTime 100, droppedFrames 20 and uploadLatency
    500 the four signal scores 3, 3, 2, 3 average to 11/4 >= 2.5, the target
    level is 3, and from any state the controller can be in, the first tick
    already, and every tick after it, leaves the level at 3 with the last
    entry of the table: dtype U8, downsample 2. *)
Theorem poor_metrics_reach_max_degradation
        (ops : list ControllerOp) (hasSend : bool) (n : nat) (now : Z) :
  let c := updateMetrics poorSample (runControllerOps ops (newController hasSend)) in
  fps (metrics c) = 10%Q /\ avgFrameTime (metrics c) = 100%Q /\
  droppedFrames (metrics c) = 20%Q /\ uploadLatency (metrics c) = 500%Q /\
  calculatePerformanceScore c = (11 # 4)%Q /\
  (25 # 10 <= calculatePerformanceScore c)%Q /\
  target c = 3 /\
  ((1 <= n)%nat ->
   degradationLevel (ticks n now c) = 3 /\
   dtype (currentSettings (ticks n now c)) = U8 /\
   downsample (currentSettings (ticks n now c)) = 2) /\
  nth_error qualityLevels 3
  = Some (mkSettings U8 2 (Some "Low precision + downsampling"%string)) /\
  List.length qualityLevels = 4%nat.
Proof.
  intros c. repeat split; try reflexivity.
  - unfold c. rewrite poorSample_score. unfold Qle. cbn. lia.
  - apply ticks_to_max; [ | reflexivity | assumption].
    apply (controller_runOps_inv ops (newController hasSend) (newController_inv hasSend)).
  - apply ticks_to_max; [ | reflexivity | assumption].
    apply (controller_runOps_inv ops (newController hasSend) (newController_inv hasSend)).
  - apply ticks_to_max; [ | reflexivity | assumption].
    apply (controller_runOps_inv ops (newController hasSend) (newController_inv hasSend)).
Qed.

(** Three ticks on a new controller. *)
Lemma poor_metrics_reach_max_degradation_witness :
  let c := ticks 3 0 (updateMetrics poorSample (newController true)) in
  degradationLevel c = 3 /\ dtype (currentSettings c) = U8 /\ downsample (currentSettings c) = 2.
Proof.
  destruct (poor_metrics_reach_max_degradation [] true 3 0)
    as (_ & _ & _ & _ & _ & _ & _ & H & _).
  apply H. repeat constructor.
Defined.


(** C5 (the code disagrees).  The steady-state counter does not count
    consecutive ticks of good samples.  It goes up on every tick whose
    target is merely below the current level, and the tick on which it
    reaches 60 applies the target of that one tick: after one poor tick
    (level 3) and 59 ticks of samples that are still poor in three signals
    of four (target 2), a single good sample takes the level from 3 to 0 and
    sends f32 / 1.  It also goes up, to at most 10, on ticks whose target
    equals the level: after eleven poor ticks (level 3, counter 10), 50 good
    ticks, not 60, bring the level back to 0. *)
Theorem good_sample_upgrades_without_60_good_ticks :
  threshold_steadyStateFrames = 60 /\
  (let c1 := evaluatePerformance 0 (updateMetrics poorSample (newController true)) in
   let c59 := ticks 59 1000 (updateMetrics laggingSample c1) in
   let c' := evaluatePerformance 60000 (updateMetrics goodSample c59) in
   degradationLevel c1 = 3 /\ steadyStateFrames c1 = 0 /\
   target (updateMetrics laggingSample c1) = 2 /\
   degradationLevel c59 = 3 /\ steadyStateFrames c59 = 59 /\
   target (updateMetrics goodSample c59) = 0 /\
   degradationLevel c' = 0 /\ steadyStateFrames c' = 0 /\
   dtype (currentSettings c') = F32 /\ downsample (currentSettings c') = 1 /\
   sent c' = sent c59 ++ [mkMessage "f32" 1 60000]) /\
  (degradationLevel degraded = 3 /\ steadyStateFrames degraded = 10 /\
   target (updateMetrics goodSample degraded) = 0 /\
   degradationLevel (ticks 49 11000 (updateMetrics goodSample degraded)) = 3 /\
   degradationLevel (ticks 50 11000 (updateMetrics goodSample degraded)) = 0).
Proof. vm_compute. repeat split; reflexivity. Qed.

End QualityProperties.
